(** * pongo2: the dynamic [Value] wrapper of the template engine (value.go)

    A shallow embedding of [value.go] and a verification of its documented
    behaviour.  The Go file is written against the [reflect] package, so the
    development starts with a model of the part of [reflect] that the file
    uses; then come the text helpers ([[]rune] conversion, [strconv], [fmt]),
    the diagnostics monad, the methods of [Value] in the order of the source
    file, and finally the theorems.

    Conventions.
    - Go's [int] is the 64-bit integer of the usual targets; integers are [Z]
      with the wrap-around of each conversion written out.
    - Go's [float64] is Rocq's primitive binary64 [float].
    - A Go [string] is a [string] of bytes; code points are [Z].
    - A run-time panic is [None]; a call of [logf] appends to a diagnostics
      log that every logging method returns next to its result. *)

From Stdlib Require Import ZArith List String Ascii Bool Lia Permutation.
From Stdlib Require Import Floats DecimalString.
Import ListNotations.

Set Warnings "-inexact-float,-register-all".
Open Scope Z_scope.

(* ================================================================== *)
(** * A model of the [reflect] package *)
(* ================================================================== *)

Module reflect.

(** [reflect.Kind], in the order of the Go declaration. *)
Inductive Kind : Set :=
| Invalid | Bool
| Int | Int8 | Int16 | Int32 | Int64
| Uint | Uint8 | Uint16 | Uint32 | Uint64 | Uintptr
| Float32 | Float64 | Complex64 | Complex128
| Array | Chan | Func | Interface | Map | Ptr | Slice | String | Struct
| UnsafePointer.

Definition Kind_eq_dec (a b : Kind) : {a = b} + {a <> b}.
Proof. decide equality. Defined.

Definition Kind_eqb (a b : Kind) : bool :=
  if Kind_eq_dec a b then true else false.

(** [Kind.String()] *)
Definition Kind_String (k : Kind) : string :=
  match k with
  | Invalid => "invalid" | Bool => "bool"
  | Int => "int" | Int8 => "int8" | Int16 => "int16" | Int32 => "int32"
  | Int64 => "int64"
  | Uint => "uint" | Uint8 => "uint8" | Uint16 => "uint16"
  | Uint32 => "uint32" | Uint64 => "uint64" | Uintptr => "uintptr"
  | Float32 => "float32" | Float64 => "float64"
  | Complex64 => "complex64" | Complex128 => "complex128"
  | Array => "array" | Chan => "chan" | Func => "func"
  | Interface => "interface" | Map => "map" | Ptr => "ptr"
  | Slice => "slice" | String => "string" | Struct => "struct"
  | UnsafePointer => "unsafe.Pointer"
  end%string.

(** [reflect.Type]: the identity of a Go type.  Struct, func and interface
    type literals are identified by their text; a literal also records
    whether values of the type can be compared with [==]. *)
Inductive rtype : Set :=
| Predeclared (k : Kind)                  (* bool, int, ..., float64, string *)
| Defined (name : string) (under : rtype) (* type name under *)
| PtrTo (elem : rtype)
| SliceOf (elem : rtype)
| ArrayOf (len : nat) (elem : rtype)
| MapOf (key elem : rtype)
| ChanOf (elem : rtype)
| Literal (k : Kind) (text : string) (comparable : bool).

Definition rtype_eq_dec (a b : rtype) : {a = b} + {a <> b}.
Proof.
  decide equality;
    try apply Kind_eq_dec; try apply string_dec;
    try apply Nat.eq_dec; try apply bool_dec.
Defined.

Definition rtype_eqb (a b : rtype) : bool :=
  if rtype_eq_dec a b then true else false.

(** [Type.Kind()] *)
Fixpoint Type_Kind (t : rtype) : Kind :=
  match t with
  | Predeclared k => k
  | Defined _ u => Type_Kind u
  | PtrTo _ => Ptr
  | SliceOf _ => Slice
  | ArrayOf _ _ => Array
  | MapOf _ _ => Map
  | ChanOf _ => Chan
  | Literal k _ _ => k
  end.

(** [Type.Key()] of a map type. *)
Fixpoint Type_Key (t : rtype) : option rtype :=
  match t with
  | MapOf k _ => Some k
  | Defined _ u => Type_Key u
  | _ => None
  end.

(** [Type.String()] *)
Fixpoint Type_String (t : rtype) : string :=
  match t with
  | Predeclared k => Kind_String k
  | Defined name _ => name
  | PtrTo e => "*" ++ Type_String e
  | SliceOf e => "[]" ++ Type_String e
  | ArrayOf n e =>
      "[" ++ NilZero.string_of_uint (Nat.to_uint n) ++ "]" ++ Type_String e
  | MapOf k e => "map[" ++ Type_String k ++ "]" ++ Type_String e
  | ChanOf e => "chan " ++ Type_String e
  | Literal _ text _ => text
  end%string.

(** [Type.Comparable()] *)
Fixpoint Type_Comparable (t : rtype) : bool :=
  match t with
  | Predeclared _ => true
  | Defined _ u => Type_Comparable u
  | PtrTo _ => true
  | SliceOf _ => false
  | ArrayOf _ e => Type_Comparable e
  | MapOf _ _ => false
  | ChanOf _ => true
  | Literal _ _ c => c
  end.

(** [reflect.Value]: the zero Value, or a typed datum.  The elements of a
    sequence, the keys and values of a map, the fields of a struct and the
    target of a pointer are stored as the reflect Values that [Index],
    [MapKeys], [MapIndex], [FieldByName] and [Elem] return; an element whose
    static type is an interface type is a [VIface] around its dynamic value.
    Pointers, channels and opaque data carry the identity that [==] compares. *)
Inductive rvalue : Type :=
| VInvalid
| VBool (t : rtype) (b : bool)
| VInt (t : rtype) (n : Z)
| VUint (t : rtype) (n : Z)
| VFloat (t : rtype) (f : float)
| VString (t : rtype) (s : string)
| VSeq (t : rtype) (items spare : list rvalue)
    (* array or slice; [spare]: the backing array of a slice from its
       length to its capacity (an array has none, and none is read) *)
| VMap (t : rtype) (entries : list (rvalue * rvalue))
| VChan (t : rtype) (id : Z) (queued : nat)
| VStruct (t : rtype) (fields : list (string * rvalue))
| VPtr (t : rtype) (addr : Z) (elem : rvalue)         (* nil: elem invalid *)
| VIface (t : rtype) (dyn : rvalue)
| VOpaque (t : rtype) (id : Z).        (* func, complex, uintptr, unsafe *)

Definition Value_IsValid (r : rvalue) : bool :=
  match r with VInvalid => false | _ => true end.

(** The methods of [reflect.Value] are prefixed with [Value_].

    [Value.Type()]; it panics on the zero Value. *)
Definition Value_Type (r : rvalue) : option rtype :=
  match r with
  | VInvalid => None
  | VBool t _ | VInt t _ | VUint t _ | VFloat t _ | VString t _
  | VSeq t _ _ | VMap t _ | VChan t _ _ | VStruct t _ | VPtr t _ _
  | VIface t _ | VOpaque t _ => Some t
  end.

Definition Value_Kind (r : rvalue) : Kind :=
  match Value_Type r with
  | Some t => Type_Kind t
  | None => Invalid
  end.

(** [Value.Elem()] of a pointer (the zero Value for a nil pointer) or of an
    interface. *)
Definition Value_Elem (r : rvalue) : rvalue :=
  match r with
  | VPtr _ _ e => e
  | VIface _ d => d
  | _ => VInvalid
  end.

(** The payload getters.  In Go each panics on a Value of another kind; the
    source calls them under a matching [Kind] only. *)
Definition Value_Bool (r : rvalue) : bool :=
  match r with VBool _ b => b | _ => false end.

Definition Value_Int (r : rvalue) : Z :=
  match r with VInt _ n => n | _ => 0 end.

Definition Value_Uint (r : rvalue) : Z :=
  match r with VUint _ n => n | _ => 0 end.

Definition Value_Float (r : rvalue) : float :=
  match r with VFloat _ f => f | _ => 0%float end.

(** [Value.String()]: the text of a string, and [<T Value>] for any other
    kind (it never panics). *)
Definition Value_String (r : rvalue) : string :=
  match r with
  | VString _ s => s
  | VInvalid => "<invalid Value>"
  | _ => "<" ++ match Value_Type r with
                | Some t => Type_String t
                | None => ""
                end ++ " Value>"
  end%string.

(** [Value.Len()]: elements of an array or slice, entries of a map, queued
    items of a channel, bytes of a string. *)
Definition Value_Len (r : rvalue) : Z :=
  match r with
  | VSeq _ items _ => Z.of_nat (List.length items)
  | VMap _ entries => Z.of_nat (List.length entries)
  | VChan _ _ n => Z.of_nat n
  | VString _ s => Z.of_nat (String.length s)
  | _ => 0
  end.

(** [Value.Cap()] of an array (its length) or of a slice (its length and
    what the backing array holds past it); [value.go] reaches it through
    [Value.Slice] only, on no other kind. *)
Definition Value_Cap (r : rvalue) : Z :=
  match r with
  | VSeq t items spare =>
      match Type_Kind t with
      | Array => Z.of_nat (List.length items)
      | _ => Z.of_nat (List.length items + List.length spare)
      end
  | _ => 0
  end.

(** [Value.Index(i)] of an array or slice; out of range it panics. *)
Definition Value_Index (r : rvalue) (i : Z) : option rvalue :=
  match r with
  | VSeq _ items _ => if i <? 0 then None else nth_error items (Z.to_nat i)
  | _ => None
  end.

(** The type of [v.Slice(i, j)]: slicing an array gives a slice. *)
Fixpoint Slice_Type (t : rtype) : rtype :=
  match t with
  | ArrayOf _ e => SliceOf e
  | Defined _ u => match Type_Kind u with
                   | Array => Slice_Type u
                   | _ => t
                   end
  | _ => t
  end.

(** [Value.Slice(i, j)] of an array or slice.  It panics on an array that
    is not addressable and on bounds that are not [0 <= i <= j <= cap]; the
    bound is the capacity, not the length, so a slice can be cut past its
    length, into the backing array.  The result has length [j - i] and
    capacity [cap - i]. *)
Definition Value_Slice (addressable : bool) (r : rvalue) (i j : Z)
  : option rvalue :=
  match r with
  | VSeq t items spare =>
      if (match Type_Kind t with Array => negb addressable | _ => false end)
      then None
      else
        let backing := match Type_Kind t with
                       | Array => items
                       | _ => items ++ spare
                       end in
        if (i <? 0) || (j <? i) || (Value_Cap r <? j)
        then None
        else Some (VSeq (Slice_Type t)
                     (firstn (Z.to_nat (j - i)) (skipn (Z.to_nat i) backing))
                     (skipn (Z.to_nat j) backing))
  | _ => None
  end.

(** [Value.Interface()]: the datum as an [any]; a Value of interface kind
    gives the dynamic value it holds.  [any] is modelled by [rvalue], the
    nil interface by [VInvalid]. *)
Definition Value_Interface (r : rvalue) : rvalue :=
  match r with
  | VIface _ d => d
  | _ => r
  end.

(** [reflect.ValueOf(i)]: the Value of the dynamic value of [i]. *)
Definition ValueOf (i : rvalue) : rvalue := Value_Interface i.

(** Every Value handled by this package comes from [ValueOf] or from one of
    [Elem], [Index], [MapKeys], [MapIndex]: none was read from an unexported
    struct field. *)
Definition Value_CanInterface (r : rvalue) : bool := true.

(** Go's [==] on two interface values, and on two map keys. *)
Fixpoint go_eqb (a b : rvalue) {struct a} : bool :=
  match a with
  | VInvalid => match b with VInvalid => true | _ => false end
  | VBool t x =>
      match b with VBool u y => rtype_eqb t u && Bool.eqb x y | _ => false end
  | VInt t x =>
      match b with VInt u y => rtype_eqb t u && (x =? y) | _ => false end
  | VUint t x =>
      match b with VUint u y => rtype_eqb t u && (x =? y) | _ => false end
  | VFloat t x =>
      match b with
      | VFloat u y => rtype_eqb t u && PrimFloat.eqb x y
      | _ => false
      end
  | VString t x =>
      match b with
      | VString u y => rtype_eqb t u && String.eqb x y
      | _ => false
      end
  | VSeq t xs _ =>
      match b with
      | VSeq u ys _ =>
          rtype_eqb t u &&
          (fix all2 (xs ys : list rvalue) {struct xs} : bool :=
             match xs, ys with
             | [], [] => true
             | x :: xs', y :: ys' => go_eqb x y && all2 xs' ys'
             | _, _ => false
             end) xs ys
      | _ => false
      end
  | VStruct t fs =>
      match b with
      | VStruct u gs =>
          rtype_eqb t u &&
          (fix all2 (fs gs : list (string * rvalue)) {struct fs} : bool :=
             match fs, gs with
             | [], [] => true
             | (_, x) :: fs', (_, y) :: gs' => go_eqb x y && all2 fs' gs'
             | _, _ => false
             end) fs gs
      | _ => false
      end
  | VPtr t p _ =>
      match b with VPtr u q _ => rtype_eqb t u && (p =? q) | _ => false end
  | VChan t p _ =>
      match b with VChan u q _ => rtype_eqb t u && (p =? q) | _ => false end
  | VIface _ x =>
      match b with VIface _ y => go_eqb x y | _ => false end
  | VOpaque t p =>
      match b with VOpaque u q => rtype_eqb t u && (p =? q) | _ => false end
  | VMap _ _ => false
  end.

(** [Value.MapKeys()]: the keys, in the order the run-time happens to give
    them (the order of the entries of the model stands for it). *)
Definition Value_MapKeys (r : rvalue) : list rvalue :=
  match r with
  | VMap _ entries => map fst entries
  | _ => []
  end.

(** [Value.MapIndex(key)]: the value under [key], or the zero Value. *)
Definition Value_MapIndex (r key : rvalue) : rvalue :=
  match r with
  | VMap _ entries =>
      match find (fun e => go_eqb (fst e) key) entries with
      | Some e => snd e
      | None => VInvalid
      end
  | _ => VInvalid
  end.

(** [Value.FieldByName(name)]: the field, or the zero Value. *)
Definition Value_FieldByName (r : rvalue) (name : string) : rvalue :=
  match r with
  | VStruct _ fields =>
      match find (fun f => String.eqb (fst f) name) fields with
      | Some f => snd f
      | None => VInvalid
      end
  | _ => VInvalid
  end.

(** The range of the payload of an integer kind, as [Int()] and [Uint()]
    return it. *)
Definition signed_range (k : Kind) : option (Z * Z) :=
  match k with
  | Int | Int64 => Some (- 2 ^ 63, 2 ^ 63 - 1)
  | Int8 => Some (- 2 ^ 7, 2 ^ 7 - 1)
  | Int16 => Some (- 2 ^ 15, 2 ^ 15 - 1)
  | Int32 => Some (- 2 ^ 31, 2 ^ 31 - 1)
  | _ => None
  end.

Definition unsigned_range (k : Kind) : option (Z * Z) :=
  match k with
  | Uint | Uint64 | Uintptr => Some (0, 2 ^ 64 - 1)
  | Uint8 => Some (0, 2 ^ 8 - 1)
  | Uint16 => Some (0, 2 ^ 16 - 1)
  | Uint32 => Some (0, 2 ^ 32 - 1)
  | _ => None
  end.

Definition in_range (range : option (Z * Z)) (n : Z) : bool :=
  match range with
  | Some (lo, hi) => (lo <=? n) && (n <=? hi)
  | None => false
  end.

(** The Values that Go can build: the datum agrees with the kind of its
    type, an integer fits its width, and a map stores no zero Value. *)
Definition well_formed (r : rvalue) : bool :=
  match r with
  | VInvalid => true
  | VBool t _ => Kind_eqb (Type_Kind t) Bool
  | VInt t n => in_range (signed_range (Type_Kind t)) n
  | VUint t n => in_range (unsigned_range (Type_Kind t)) n
  | VFloat t _ =>
      Kind_eqb (Type_Kind t) Float32 || Kind_eqb (Type_Kind t) Float64
  | VString t _ => Kind_eqb (Type_Kind t) String
  | VSeq t _ _ => Kind_eqb (Type_Kind t) Array || Kind_eqb (Type_Kind t) Slice
  | VMap t entries =>
      Kind_eqb (Type_Kind t) Map &&
      forallb (fun e => Value_IsValid (fst e) && Value_IsValid (snd e)) entries
  | VChan t _ _ => Kind_eqb (Type_Kind t) Chan
  | VStruct t _ => Kind_eqb (Type_Kind t) Struct
  | VPtr t _ _ => Kind_eqb (Type_Kind t) Ptr
  | VIface t _ => Kind_eqb (Type_Kind t) Interface
  | VOpaque t _ =>
      Kind_eqb (Type_Kind t) Func || Kind_eqb (Type_Kind t) Complex64 ||
      Kind_eqb (Type_Kind t) Complex128 ||
      Kind_eqb (Type_Kind t) UnsafePointer
  end.

End reflect.

(* ================================================================== *)
(** * Text and number conversions of the Go language and library *)
(* ================================================================== *)

(** The conversions [[]rune(s)] and [string(r)]: UTF-8 as Go decodes and
    encodes it.  A byte that starts no well-formed sequence decodes to
    U+FFFD and is skipped alone. *)
Module utf8.

Definition RuneError : Z := 0xFFFD.

Definition bytes (s : string) : list Z :=
  map (fun a => Z.of_N (N_of_ascii a)) (list_ascii_of_string s).

Definition of_bytes (bs : list Z) : string :=
  string_of_list_ascii (map (fun b => ascii_of_N (Z.to_N b)) bs).

(** For a first byte: the number of continuation bytes and the accepted
    range of the second byte. *)
Definition first (b0 : Z) : option (nat * Z * Z) :=
  if b0 <? 0x80 then Some (0%nat, 0, 0)
  else if b0 <? 0xC2 then None
  else if b0 <? 0xE0 then Some (1%nat, 0x80, 0xBF)
  else if b0 =? 0xE0 then Some (2%nat, 0xA0, 0xBF)
  else if b0 =? 0xED then Some (2%nat, 0x80, 0x9F)
  else if b0 <? 0xF0 then Some (2%nat, 0x80, 0xBF)
  else if b0 =? 0xF0 then Some (3%nat, 0x90, 0xBF)
  else if b0 <? 0xF4 then Some (3%nat, 0x80, 0xBF)
  else if b0 =? 0xF4 then Some (3%nat, 0x80, 0x8F)
  else None.

Definition within (lo hi b : Z) : bool := (lo <=? b) && (b <=? hi).

Definition cont (b : Z) : bool := within 0x80 0xBF b.

Fixpoint decode (bs : list Z) : list Z :=
  match bs with
  | [] => []
  | b0 :: r1 =>
      match first b0 with
      | Some (O, _, _) => b0 :: decode r1
      | Some (1%nat, lo, hi) =>
          match r1 with
          | b1 :: r2 =>
              if within lo hi b1
              then (b0 mod 32 * 64 + b1 mod 64) :: decode r2
              else RuneError :: decode r1
          | [] => RuneError :: decode r1
          end
      | Some (2%nat, lo, hi) =>
          match r1 with
          | b1 :: b2 :: r3 =>
              if within lo hi b1 && cont b2
              then (b0 mod 16 * 4096 + b1 mod 64 * 64 + b2 mod 64)
                     :: decode r3
              else RuneError :: decode r1
          | _ => RuneError :: decode r1
          end
      | Some (_, lo, hi) =>
          match r1 with
          | b1 :: b2 :: b3 :: r4 =>
              if within lo hi b1 && cont b2 && cont b3
              then (b0 mod 8 * 262144 + b1 mod 64 * 4096
                    + b2 mod 64 * 64 + b3 mod 64) :: decode r4
              else RuneError :: decode r1
          | _ => RuneError :: decode r1
          end
      | None => RuneError :: decode r1
      end
  end.

(** A Unicode scalar value: what [string(r)] encodes as itself. *)
Definition valid_rune (r : Z) : bool :=
  within 0 0xD7FF r || within 0xE000 0x10FFFF r.

Definition encode_valid (r : Z) : list Z :=
  if r <? 0x80 then [r]
  else if r <? 0x800 then [0xC0 + r / 64; 0x80 + r mod 64]
  else if r <? 0x10000
  then [0xE0 + r / 4096; 0x80 + r / 64 mod 64; 0x80 + r mod 64]
  else [0xF0 + r / 262144; 0x80 + r / 4096 mod 64;
        0x80 + r / 64 mod 64; 0x80 + r mod 64].

Definition encode (r : Z) : list Z :=
  if valid_rune r then encode_valid r else encode_valid RuneError.

(** [[]rune(s)] *)
Definition runes (s : string) : list Z := decode (bytes s).

(** [string(r)] for a rune [r] *)
Definition string_of_rune (r : Z) : string := of_bytes (encode r).

(** [string(rs)] for a slice of runes [rs] *)
Definition string_of_runes (rs : list Z) : string :=
  of_bytes (flat_map encode rs).

End utf8.

Module strconv.

(** [strconv.FormatInt(n, 10)] *)
Definition FormatInt (n : Z) : string := NilZero.string_of_int (Z.to_int n).

(** [strconv.FormatUint(n, 10)] *)
Definition FormatUint (n : Z) : string := NilZero.string_of_int (Z.to_int n).

End strconv.

Module strings.

(** [strings.Contains(s, substr)] *)
Fixpoint Contains (s substr : string) : bool :=
  String.prefix substr s ||
  match s with
  | EmptyString => false
  | String.String _ s' => Contains s' substr
  end.

End strings.

Module fmt.

Definition sign_text (s : bool) : string := if s then "-" else "".

Fixpoint zeros (n : nat) : string :=
  match n with
  | O => ""
  | S n' => String.String "0" (zeros n')
  end.

(** The six digits after the point. *)
Definition frac6 (n : Z) : string :=
  let d := strconv.FormatInt n in
  (zeros (6 - String.length d) ++ d)%string.

(** [q] is the nearest integer to [m * 2^e * 10^6], ties to even: the
    correctly rounded decimal that [strconv] produces. *)
Definition scaled6 (m : positive) (e : Z) : Z :=
  if 0 <=? e then Z.pos m * 1000000 * 2 ^ e
  else
    let num := Z.pos m * 1000000 in
    let den := 2 ^ (- e) in
    let q := num / den in
    let r := num mod den in
    if (den <? 2 * r) || ((den =? 2 * r) && Z.odd q) then q + 1 else q.

(** [fmt.Sprintf("%f", f)] *)
Definition Sprintf_f (f : float) : string :=
  match Prim2SF f with
  | S754_nan => "NaN"
  | S754_infinity false => "+Inf"
  | S754_infinity true => "-Inf"
  | S754_zero s => sign_text s ++ "0.000000"
  | S754_finite s m e =>
      let q := scaled6 m e in
      sign_text s ++ strconv.FormatInt (q / 1000000) ++ "."
        ++ frac6 (q mod 1000000)
  end%string.

End fmt.

(** The numeric conversions of the language. *)
Module conv.

Definition min_int64 : Z := - 2 ^ 63.
Definition max_int64 : Z := 2 ^ 63 - 1.

(** [int(n)] for an integer [n] of any width: wrap to 64 bits, signed. *)
Definition int_of_Z (n : Z) : Z := (n + 2 ^ 63) mod 2 ^ 64 - 2 ^ 63.

(** [int(f)] for a float: the fraction is discarded.  A value that does not
    fit is implementation-defined in Go; amd64 gives the least [int]. *)
Definition int_of_float (f : float) : Z :=
  match Prim2SF f with
  | S754_zero _ => 0
  | S754_finite s m e =>
      let a := if 0 <=? e then Z.pos m * 2 ^ e else Z.pos m / 2 ^ (- e) in
      let z := if s then - a else a in
      if (min_int64 <=? z) && (z <=? max_int64) then z else min_int64
  | _ => min_int64
  end.

(** [float64(n)] for an integer: the nearest float, ties to even. *)
Definition float64_of_int (n : Z) : float :=
  SF2Prim (binary_normalize prec emax n 0 false).

End conv.

(* ================================================================== *)
(** * Diagnostics *)
(* ================================================================== *)

(** An entry of the diagnostics log: the format of a call of [logf] and
    its argument.  A computation that may call [logf] returns its result
    together with the entries it emitted. *)
Record diagnostic : Set := { format : string; argument : string }.

Definition W (A : Type) : Type := (A * list diagnostic)%type.

Definition ret {A} (a : A) : W A := (a, []).

Definition bind {A B} (m : W A) (k : A -> W B) : W B :=
  let (a, l1) := m in
  let (b, l2) := k a in
  (b, l1 ++ l2).

(** Modelled from the spec: [logf], the process-wide diagnostics sink, is
    declared outside [value.go].  It is fire-and-forget: a call records the
    format and its argument and has no other effect. *)
Definition logf (fmt : string) (arg : string) : W unit :=
  (tt, [{| format := fmt; argument := arg |}]).

Declare Scope go_scope.
Delimit Scope go_scope with go.
Notation "x <- m ;; k" := (bind m (fun x => k))
  (at level 61, m at next level, right associativity) : go_scope.
Notation "m ;;; k" := (bind m (fun _ => k))
  (at level 61, right associativity) : go_scope.
Open Scope go_scope.

(** The value computed, and the diagnostics emitted. *)
Definition result {A} (m : W A) : A := fst m.
Definition diagnostics {A} (m : W A) : list diagnostic := snd m.

Definition newline : string := String.String (ascii_of_nat 10) EmptyString.

(* ================================================================== *)
(** * value.go *)
(* ================================================================== *)

(** [type Value struct { val reflect.Value; safe bool }] *)
Record Value : Type := { val : reflect.rvalue; safe : bool }.

(** [AsValue(i)] *)
Definition AsValue (i : reflect.rvalue) : Value :=
  {| val := reflect.ValueOf i; safe := false |}.

(** [AsSafeValue(i)] *)
Definition AsSafeValue (i : reflect.rvalue) : Value :=
  {| val := reflect.ValueOf i; safe := true |}.

(** The operands of [AsValue] that the source writes as literals. *)
Definition go_int (n : Z) : reflect.rvalue :=
  reflect.VInt (reflect.Predeclared reflect.Int) n.
Definition go_float64 (f : float) : reflect.rvalue :=
  reflect.VFloat (reflect.Predeclared reflect.Float64) f.
Definition go_bool (b : bool) : reflect.rvalue :=
  reflect.VBool (reflect.Predeclared reflect.Bool) b.
Definition go_string (s : string) : reflect.rvalue :=
  reflect.VString (reflect.Predeclared reflect.String) s.
Definition go_nil : reflect.rvalue := reflect.VInvalid.
(** [[]int{}] *)
Definition go_empty_ints : reflect.rvalue :=
  reflect.VSeq (reflect.SliceOf (reflect.Predeclared reflect.Int)) [] [].

(** [time.Time] and its zero value [time.Time{}]. *)
Definition time_Time : reflect.rtype :=
  reflect.Defined "time.Time"
    (reflect.Literal reflect.Struct
       "struct { wall uint64; ext int64; loc *time.Location }" true).

Definition time_zero : reflect.rvalue :=
  reflect.VStruct time_Time
    [("wall"%string, reflect.VUint (reflect.Predeclared reflect.Uint64) 0);
     ("ext"%string, reflect.VInt (reflect.Predeclared reflect.Int64) 0);
     ("loc"%string,
       reflect.VPtr
         (reflect.PtrTo
            (reflect.Defined "time.Location"
               (reflect.Literal reflect.Struct "struct {...}" true)))
         0 reflect.VInvalid)].

(** The type assertion [i.(T)] for a concrete type [T]: whether it holds. *)
Definition type_assert (T : reflect.rtype) (i : reflect.rvalue) : bool :=
  match reflect.Value_Type i with
  | Some t => reflect.rtype_eqb t T
  | None => false
  end.

(** [a == b] on two kinds *)
Notation "a == b" := (reflect.Kind_eqb a b) (at level 70, no associativity).

(** [func (v *Value) getResolvedValue() reflect.Value] *)
Definition getResolvedValue (v : Value) : reflect.rvalue :=
  if reflect.Value_IsValid (val v) &&
     (reflect.Value_Kind (val v) == reflect.Ptr)
  then reflect.Value_Elem (val v)
  else val v.

(** [IsString] *)
Definition IsString (v : Value) : bool :=
  reflect.Value_Kind (getResolvedValue v) == reflect.String.

(** [IsBool] *)
Definition IsBool (v : Value) : bool :=
  reflect.Value_Kind (getResolvedValue v) == reflect.Bool.

(** [IsFloat] *)
Definition IsFloat (v : Value) : bool :=
  (reflect.Value_Kind (getResolvedValue v) == reflect.Float32) ||
  (reflect.Value_Kind (getResolvedValue v) == reflect.Float64).

(** [IsInteger] *)
Definition IsInteger (v : Value) : bool :=
  (reflect.Value_Kind (getResolvedValue v) == reflect.Int) ||
  (reflect.Value_Kind (getResolvedValue v) == reflect.Int8) ||
  (reflect.Value_Kind (getResolvedValue v) == reflect.Int16) ||
  (reflect.Value_Kind (getResolvedValue v) == reflect.Int32) ||
  (reflect.Value_Kind (getResolvedValue v) == reflect.Int64) ||
  (reflect.Value_Kind (getResolvedValue v) == reflect.Uint) ||
  (reflect.Value_Kind (getResolvedValue v) == reflect.Uint8) ||
  (reflect.Value_Kind (getResolvedValue v) == reflect.Uint16) ||
  (reflect.Value_Kind (getResolvedValue v) == reflect.Uint32) ||
  (reflect.Value_Kind (getResolvedValue v) == reflect.Uint64).

(** [IsNumber] *)
Definition IsNumber (v : Value) : bool := IsInteger v || IsFloat v.

(** [Interface] *)
Definition Interface (v : Value) : reflect.rvalue :=
  if reflect.Value_IsValid (val v)
  then reflect.Value_Interface (val v)
  else go_nil.

(** [IsTime]: [_, ok := v.Interface().(time.Time)] *)
Definition IsTime (v : Value) : bool := type_assert time_Time (Interface v).

(** [IsNil] *)
Definition IsNil (v : Value) : bool :=
  negb (reflect.Value_IsValid (getResolvedValue v)).

(** [Bool] *)
Definition Bool (v : Value) : W bool :=
  match reflect.Value_Kind (getResolvedValue v) with
  | reflect.Bool => ret (reflect.Value_Bool (getResolvedValue v))
  | _ =>
      logf ("Value.Bool() not available for type: %s" ++ newline)
        (reflect.Kind_String (reflect.Value_Kind (getResolvedValue v))) ;;;
      ret false
  end.

(** [Time] *)
Definition Time (v : Value) : reflect.rvalue :=
  if type_assert time_Time (Interface v) then Interface v else time_zero.

(* ================================================================== *)
(** * A host to run the methods on *)
(* ================================================================== *)

(** An instance of each library function that [value.go] calls and this
    development takes as given; the examples and the instances of the
    theorems run on it. *)
Module example.

(** Decimal integer literals, the part of [strconv.ParseFloat] that the
    examples need: [None] stands for [err != nil]. *)
Fixpoint digits (s : string) (acc : Z) : option Z :=
  match s with
  | EmptyString => Some acc
  | String.String c rest =>
      let d := Z.of_N (N_of_ascii c) - 48 in
      if (0 <=? d) && (d <=? 9) then digits rest (10 * acc + d) else None
  end.

Definition ParseFloat (s : string) : option float :=
  match s with
  | EmptyString => None
  | String.String "-" (String.String _ _ as rest) =>
      option_map (fun n => conv.float64_of_int (- n)) (digits rest 0)
  | _ => option_map conv.float64_of_int (digits s 0)
  end.

(** No type of the examples has a [String] method. *)
Definition Stringer (i : reflect.rvalue) : option string := None.

(** The conversion of a short string into the 32 code points of the
    stack buffer, of a longer one into an allocation of its size. *)
Definition cap_of_runes (n : nat) : nat := Nat.max 32 n.

(** Two times are the same instant when their fields agree. *)
Definition time_Equal (t u : reflect.rvalue) : bool := reflect.go_eqb t u.

(** A stable insertion sort; it compares two elements by laying them out
    as a two-element slice for [Less]. *)
Fixpoint insert {A : Type} (less : list A -> nat -> nat -> W bool)
  (x : A) (sorted : list A) : W (list A) :=
  match sorted with
  | [] => ret [x]
  | y :: rest =>
      b <- less [y; x] 0%nat 1%nat ;;
      if b then (r <- insert less x rest ;; ret (y :: r))
      else ret (x :: y :: rest)
  end.

Fixpoint Sort (A : Type) (less : list A -> nat -> nat -> W bool)
  (l : list A) : W (list A) :=
  match l with
  | [] => ret []
  | x :: rest => s <- Sort A less rest ;; insert less x s
  end.

Definition SliceStable (A : Type) (less : list A -> nat -> nat -> bool)
  (l : list A) : list A :=
  result (Sort A (fun data i j => ret (less data i j)) l).


(** The data of the examples: a reference [*int] to 5, a time and a
    reference [*time.Time] to it, the slices [[10, 20]] and [[3, 1, 2]], the
    map [{"b": 2, "a": 1}], and maps keyed by [type MyInt int] and by
    [int64]. *)
Definition ref_to_five : reflect.rvalue :=
  reflect.VPtr (reflect.PtrTo (reflect.Predeclared reflect.Int)) 1 (go_int 5).

Definition some_time : reflect.rvalue :=
  reflect.VStruct time_Time
    [("wall"%string, reflect.VUint (reflect.Predeclared reflect.Uint64) 1);
     ("ext"%string, reflect.VInt (reflect.Predeclared reflect.Int64) 0);
     ("loc"%string,
       reflect.VPtr
         (reflect.PtrTo
            (reflect.Defined "time.Location"
               (reflect.Literal reflect.Struct "struct {...}" true)))
         0 reflect.VInvalid)].

Definition ref_to_time : reflect.rvalue :=
  reflect.VPtr (reflect.PtrTo time_Time) 2 some_time.

Definition two_ints : reflect.rvalue :=
  reflect.VSeq (reflect.SliceOf (reflect.Predeclared reflect.Int))
    [go_int 10; go_int 20] [].

Definition three_ints : reflect.rvalue :=
  reflect.VSeq (reflect.SliceOf (reflect.Predeclared reflect.Int))
    [go_int 3; go_int 1; go_int 2] [].

(** [make([]int, 2, 5)] with 10 and 20 stored: three elements to spare. *)
Definition roomy_ints : reflect.rvalue :=
  reflect.VSeq (reflect.SliceOf (reflect.Predeclared reflect.Int))
    [go_int 10; go_int 20] [go_int 0; go_int 0; go_int 0].

Definition ages : reflect.rvalue :=
  reflect.VMap
    (reflect.MapOf (reflect.Predeclared reflect.String)
       (reflect.Predeclared reflect.Int))
    [(go_string "b", go_int 2); (go_string "a", go_int 1)].

Definition MyInt : reflect.rtype :=
  reflect.Defined "main.MyInt" (reflect.Predeclared reflect.Int).

Definition my_one : reflect.rvalue := reflect.VInt MyInt 1.

Definition by_my_int : reflect.rvalue :=
  reflect.VMap (reflect.MapOf MyInt (reflect.Predeclared reflect.String))
    [(my_one, go_string "one")].

Definition one_int64 : reflect.rvalue :=
  reflect.VInt (reflect.Predeclared reflect.Int64) 1.

Definition by_int64 : reflect.rvalue :=
  reflect.VMap
    (reflect.MapOf (reflect.Predeclared reflect.Int64)
       (reflect.Predeclared reflect.String))
    [(one_int64, go_string "one")].

(** Two callbacks on a counter of calls: one goes on, one stops at once. *)
Definition count_visits (idx count : Z) (key : Value) (value : option Value)
  (calls : nat) : bool * nat := (true, S calls).

Definition stop_at_once (idx count : Z) (key : Value) (value : option Value)
  (calls : nat) : bool * nat := (false, S calls).

End example.

Section Host.

(** What the host provides and [value.go] only calls. *)

(** [strconv.ParseFloat(s, 64)]: the float, or [None] when [err != nil]. *)
Variable strconv_ParseFloat : string -> option float.

(** [i.(fmt.Stringer)] followed by [t.String()]: [None] when the dynamic
    type of [i] has no [String() string] method, else what the call
    returns. *)
Variable fmt_Stringer : reflect.rvalue -> option string.

(** [t.Equal(u)] of [time.Time]: the same instant. *)
Variable time_Equal : reflect.rvalue -> reflect.rvalue -> bool.

(** [String] *)
Definition String (v : Value) : W string :=
  if IsNil v then ret ""%string
  else
    match fmt_Stringer (Interface v) with
    | Some t => ret t
    | None =>
        match reflect.Value_Kind (getResolvedValue v) with
        | reflect.String => ret (reflect.Value_String (getResolvedValue v))
        | reflect.Int | reflect.Int8 | reflect.Int16 | reflect.Int32
        | reflect.Int64 =>
            ret (strconv.FormatInt (reflect.Value_Int (getResolvedValue v)))
        | reflect.Uint | reflect.Uint8 | reflect.Uint16 | reflect.Uint32
        | reflect.Uint64 =>
            ret (strconv.FormatUint (reflect.Value_Uint (getResolvedValue v)))
        | reflect.Float32 | reflect.Float64 =>
            ret (fmt.Sprintf_f (reflect.Value_Float (getResolvedValue v)))
        | reflect.Bool =>
            b <- Bool v ;;
            if b then ret "True"%string else ret "False"%string
        | _ =>
            logf ("Value.String() not implemented for type: %s" ++ newline)
              (reflect.Kind_String
                 (reflect.Value_Kind (getResolvedValue v))) ;;;
            ret (reflect.Value_String (getResolvedValue v))
        end
    end.

(** [Integer] *)
Definition Integer (v : Value) : W Z :=
  match reflect.Value_Kind (getResolvedValue v) with
  | reflect.Int | reflect.Int8 | reflect.Int16 | reflect.Int32
  | reflect.Int64 =>
      ret (conv.int_of_Z (reflect.Value_Int (getResolvedValue v)))
  | reflect.Uint | reflect.Uint8 | reflect.Uint16 | reflect.Uint32
  | reflect.Uint64 =>
      ret (conv.int_of_Z (reflect.Value_Uint (getResolvedValue v)))
  | reflect.Float32 | reflect.Float64 =>
      ret (conv.int_of_float (reflect.Value_Float (getResolvedValue v)))
  | reflect.String =>
      match strconv_ParseFloat (reflect.Value_String (getResolvedValue v)) with
      | None => ret 0
      | Some f => ret (conv.int_of_float f)
      end
  | _ =>
      logf ("Value.Integer() not available for type: %s" ++ newline)
        (reflect.Kind_String (reflect.Value_Kind (getResolvedValue v))) ;;;
      ret 0
  end.

(** [Float] *)
Definition Float (v : Value) : W float :=
  match reflect.Value_Kind (getResolvedValue v) with
  | reflect.Int | reflect.Int8 | reflect.Int16 | reflect.Int32
  | reflect.Int64 =>
      ret (conv.float64_of_int (reflect.Value_Int (getResolvedValue v)))
  | reflect.Uint | reflect.Uint8 | reflect.Uint16 | reflect.Uint32
  | reflect.Uint64 =>
      ret (conv.float64_of_int (reflect.Value_Uint (getResolvedValue v)))
  | reflect.Float32 | reflect.Float64 =>
      ret (reflect.Value_Float (getResolvedValue v))
  | reflect.String =>
      match strconv_ParseFloat (reflect.Value_String (getResolvedValue v)) with
      | None => ret 0%float
      | Some f => ret f
      end
  | _ =>
      logf ("Value.Float() not available for type: %s" ++ newline)
        (reflect.Kind_String (reflect.Value_Kind (getResolvedValue v))) ;;;
      ret 0%float
  end.

(** [IsTrue] *)
Definition IsTrue (v : Value) : W bool :=
  match reflect.Value_Kind (getResolvedValue v) with
  | reflect.Int | reflect.Int8 | reflect.Int16 | reflect.Int32
  | reflect.Int64 =>
      ret (negb (reflect.Value_Int (getResolvedValue v) =? 0))
  | reflect.Uint | reflect.Uint8 | reflect.Uint16 | reflect.Uint32
  | reflect.Uint64 =>
      ret (negb (reflect.Value_Uint (getResolvedValue v) =? 0))
  | reflect.Float32 | reflect.Float64 =>
      ret (negb (PrimFloat.eqb (reflect.Value_Float (getResolvedValue v)) 0))
  | reflect.Array | reflect.Chan | reflect.Map | reflect.Slice
  | reflect.String =>
      ret (0 <? reflect.Value_Len (getResolvedValue v))
  | reflect.Bool => ret (reflect.Value_Bool (getResolvedValue v))
  | reflect.Struct => ret true
  | _ =>
      logf ("Value.IsTrue() not available for type: %s" ++ newline)
        (reflect.Kind_String (reflect.Value_Kind (getResolvedValue v))) ;;;
      ret false
  end.

(** [Negate] *)
Definition Negate (v : Value) : W Value :=
  match reflect.Value_Kind (getResolvedValue v) with
  | reflect.Int | reflect.Int8 | reflect.Int16 | reflect.Int32
  | reflect.Int64
  | reflect.Uint | reflect.Uint8 | reflect.Uint16 | reflect.Uint32
  | reflect.Uint64 =>
      i <- Integer v ;;
      if negb (i =? 0) then ret (AsValue (go_int 0))
      else ret (AsValue (go_int 1))
  | reflect.Float32 | reflect.Float64 =>
      f <- Float v ;;
      if negb (PrimFloat.eqb f 0) then ret (AsValue (go_float64 0))
      else ret (AsValue (go_float64 1.1))
  | reflect.Array | reflect.Chan | reflect.Map | reflect.Slice
  | reflect.String =>
      ret (AsValue (go_bool (reflect.Value_Len (getResolvedValue v) =? 0)))
  | reflect.Bool =>
      ret (AsValue (go_bool (negb (reflect.Value_Bool (getResolvedValue v)))))
  | reflect.Struct => ret (AsValue (go_bool false))
  | _ =>
      logf ("Value.IsTrue() not available for type: %s" ++ newline)
        (reflect.Kind_String (reflect.Value_Kind (getResolvedValue v))) ;;;
      ret (AsValue (go_bool true))
  end.

(** [Len] *)
Definition Len (v : Value) : W Z :=
  match reflect.Value_Kind (getResolvedValue v) with
  | reflect.Array | reflect.Chan | reflect.Map | reflect.Slice =>
      ret (reflect.Value_Len (getResolvedValue v))
  | reflect.String =>
      let runes := utf8.runes (reflect.Value_String (getResolvedValue v)) in
      ret (Z.of_nat (List.length runes))
  | _ =>
      logf ("Value.Len() not available for type: %s" ++ newline)
        (reflect.Kind_String (reflect.Value_Kind (getResolvedValue v))) ;;;
      ret 0
  end.

(** Whether the resolved value is addressable: reflect makes the target of
    a pointer addressable, and nothing else that [reflect.ValueOf] returns. *)
Definition resolvedCanAddr (v : Value) : bool :=
  reflect.Value_IsValid (val v) &&
  (reflect.Value_Kind (val v) == reflect.Ptr).

(** [cap([]rune(s))] for a string of [n] code points.  The run-time
    converts into a buffer of its choice (one of 32 code points on the
    stack, or a size class of the allocator) that it has zeroed; what the
    language promises is that the capacity is not below the length. *)
Variable cap_of_runes : nat -> nat.

(** [runes[i:j]] for [runes := []rune(s)]: the bound is the capacity, and
    past the length the buffer holds zero code points. *)
Definition slice_runes (runes : list Z) (i j : Z) : option (list Z) :=
  let cap := cap_of_runes (List.length runes) in
  let backing := runes ++ repeat 0 (cap - List.length runes) in
  if (i <? 0) || (j <? i) || (Z.of_nat cap <? j)
  then None
  else Some (firstn (Z.to_nat (j - i)) (skipn (Z.to_nat i) backing)).

(** [runes[i]] *)
Definition index_runes (runes : list Z) (i : Z) : option Z :=
  if i <? 0 then None else nth_error runes (Z.to_nat i).

(** [Slice]; [None] is the run-time panic of an invalid range. *)
Definition Slice (v : Value) (i j : Z) : option (W Value) :=
  match reflect.Value_Kind (getResolvedValue v) with
  | reflect.Array | reflect.Slice =>
      match
        reflect.Value_Slice (resolvedCanAddr v) (getResolvedValue v) i j
      with
      | Some s => Some (ret (AsValue (reflect.Value_Interface s)))
      | None => None
      end
  | reflect.String =>
      let runes := utf8.runes (reflect.Value_String (getResolvedValue v)) in
      match slice_runes runes i j with
      | Some rs => Some (ret (AsValue (go_string (utf8.string_of_runes rs))))
      | None => None
      end
  | _ =>
      Some (logf ("Value.Slice() not available for type: %s" ++ newline)
              (reflect.Kind_String
                 (reflect.Value_Kind (getResolvedValue v))) ;;;
            ret (AsValue go_empty_ints))
  end.

(** [Index]; [None] is the run-time panic of a negative index. *)
Definition Index (v : Value) (i : Z) : option (W Value) :=
  match reflect.Value_Kind (getResolvedValue v) with
  | reflect.Array | reflect.Slice =>
      let (n, l) := Len v in
      if n <=? i then Some (AsValue go_nil, l)
      else
        match reflect.Value_Index (getResolvedValue v) i with
        | Some item => Some (AsValue (reflect.Value_Interface item), l)
        | None => None
        end
  | reflect.String =>
      let s := reflect.Value_String (getResolvedValue v) in
      let runes := utf8.runes s in
      if i <? Z.of_nat (List.length runes)
      then
        match index_runes runes i with
        | Some r => Some (ret (AsValue (go_string (utf8.string_of_rune r))))
        | None => None
        end
      else Some (ret (AsValue (go_string "")))
  | _ =>
      Some (logf ("Value.Slice() not available for type: %s" ++ newline)
              (reflect.Kind_String
                 (reflect.Value_Kind (getResolvedValue v))) ;;;
            ret (AsValue go_empty_ints))
  end.

(** [const epsilon = 1e-9] *)
Definition epsilon : float := 1e-9.

(** [castToFloat64] *)
Definition castToFloat64 (v : Value) : W float :=
  if IsInteger v
  then i <- Integer v ;; ret (conv.float64_of_int i)
  else Float v.

(** [EqualValueTo] (declared after [Contains] in the source) *)
Definition EqualValueTo (v other : Value) : W bool :=
  if IsNumber v && IsNumber other
  then
    v1 <- castToFloat64 v ;;
    v2 <- castToFloat64 other ;;
    ret (PrimFloat.ltb (v1 - v2) epsilon && PrimFloat.ltb (v2 - v1) epsilon)
  else if IsTime v && IsTime other
  then ret (time_Equal (Time v) (Time other))
  else if negb (reflect.Value_IsValid (val v)) ||
          negb (reflect.Value_IsValid (val other))
  then ret false
  else
    ret (reflect.Value_CanInterface (val v) &&
         reflect.Value_CanInterface (val other) &&
         match reflect.Value_Type (val v), reflect.Value_Type (val other) with
         | Some t, Some u =>
             reflect.Type_Comparable t && reflect.Type_Comparable u
         | _, _ => false
         end &&
         reflect.go_eqb (Interface v) (Interface other)).

(** The Values [Index(0)], ..., [Index(Len() - 1)] that a loop
    [for i := 0; i < r.Len(); i++] reads from [r]. *)
Definition indexed (r : reflect.rvalue) : list reflect.rvalue :=
  flat_map
    (fun i => match reflect.Value_Index r (Z.of_nat i) with
              | Some item => [item]
              | None => []
              end)
    (seq 0 (Z.to_nat (reflect.Value_Len r))).

(** The loop of [Contains] over the items of a slice or array. *)
Fixpoint contains_item (other : Value) (items : list reflect.rvalue)
  : W bool :=
  match items with
  | [] => ret false
  | item :: rest =>
      eq <- EqualValueTo other (AsValue (reflect.Value_Interface item)) ;;
      if eq then ret true else contains_item other rest
  end.

Definition rtype_opt_eqb (a b : option reflect.rtype) : bool :=
  match a, b with
  | Some t, Some u => reflect.rtype_eqb t u
  | None, None => true
  | _, _ => false
  end.

(** [Contains] *)
Definition Contains (v other : Value) : W bool :=
  let baseValue := getResolvedValue v in
  match reflect.Value_Kind baseValue with
  | reflect.Struct =>
      name <- String other ;;
      let fieldValue := reflect.Value_FieldByName baseValue name in
      ret (reflect.Value_IsValid fieldValue)
  | reflect.Map =>
      if negb (reflect.Value_IsValid (val other)) then ret false
      else if negb (rtype_opt_eqb
                      (match reflect.Value_Type baseValue with
                       | Some t => reflect.Type_Key t
                       | None => None
                       end)
                      (reflect.Value_Type (val other)))
      then ret false
      else if type_assert (reflect.Predeclared reflect.Int) (Interface other)
      then
        let mapValue :=
          reflect.Value_MapIndex baseValue (getResolvedValue other) in
        ret (reflect.Value_IsValid mapValue)
      else if type_assert (reflect.Predeclared reflect.String)
                (Interface other)
      then
        let mapValue :=
          reflect.Value_MapIndex baseValue (getResolvedValue other) in
        ret (reflect.Value_IsValid mapValue)
      else
        logf ("Value.Contains() does not support lookup type '%s'" ++ newline)
          (reflect.Kind_String
             (reflect.Value_Kind (getResolvedValue other))) ;;;
        ret false
  | reflect.String =>
      substr <- String other ;;
      ret (strings.Contains (reflect.Value_String (getResolvedValue v)) substr)
  | reflect.Slice | reflect.Array =>
      contains_item other (indexed baseValue)
  | _ =>
      logf ("Value.Contains() not available for type: %s" ++ newline)
        (reflect.Kind_String (reflect.Value_Kind baseValue)) ;;;
      ret false
  end.

(** [CanSlice] *)
Definition CanSlice (v : Value) : bool :=
  match reflect.Value_Kind (getResolvedValue v) with
  | reflect.Array | reflect.Slice | reflect.String => true
  | _ => false
  end.

(** [type sortedKeys []reflect.Value] and its [Less] (declared after
    [IterateOrder] in the source).  [sk[i]] is read with a default: the
    sort calls [Less] with indices below [Len()] only. *)
Definition sortedKeys : Type := list reflect.rvalue.

Definition sortedKeys_Less (sk : sortedKeys) (i j : nat) : W bool :=
  let vi := {| val := nth i sk reflect.VInvalid; safe := false |} in
  let vj := {| val := nth j sk reflect.VInvalid; safe := false |} in
  if IsInteger vi && IsInteger vj
  then a <- Integer vi ;; b <- Integer vj ;; ret (a <? b)
  else if IsFloat vi && IsFloat vj
  then a <- Float vi ;; b <- Float vj ;; ret (PrimFloat.ltb a b)
  else a <- String vi ;; b <- String vj ;; ret (String.ltb a b).

(** [type valuesList []*Value] and its [Less]. *)
Definition valuesList : Type := list Value.

Definition nil_Value : Value := {| val := reflect.VInvalid; safe := false |}.

Definition valuesList_Less (vl : valuesList) (i j : nat) : W bool :=
  let vi := nth i vl nil_Value in
  let vj := nth j vl nil_Value in
  if IsInteger vi && IsInteger vj
  then a <- Integer vi ;; b <- Integer vj ;; ret (a <? b)
  else if IsFloat vi && IsFloat vj
  then a <- Float vi ;; b <- Float vj ;; ret (PrimFloat.ltb a b)
  else a <- String vi ;; b <- String vj ;; ret (String.ltb a b).

(** [sort.Sort(data)] sorts through [data.Len()], [data.Less(i, j)] and
    [data.Swap(i, j)] only; it is given the [Less] of the slice type and the
    slice, and returns the slice as it leaves it, with the diagnostics of
    the comparisons it made. *)
Variable sort_Sort :
  forall A : Type, (list A -> nat -> nat -> W bool) -> list A -> W (list A).

(** [sort.SliceStable(x, less)], with [less] reading the slice it is given. *)
Variable sort_SliceStable :
  forall A : Type, (list A -> nat -> nat -> bool) -> list A -> list A.

(** [sort.Reverse(data)]: [Less(i, j)] is [data.Less(j, i)]. *)
Definition sort_Reverse {A : Type} (less : list A -> nat -> nat -> W bool)
  : list A -> nat -> nat -> W bool :=
  fun data i j => less data j i.

(** [l[i], l[j] = l[j], l[i]] *)
Fixpoint set_nth {A : Type} (l : list A) (i : nat) (x : A) : list A :=
  match l, i with
  | [], _ => []
  | _ :: t, O => x :: t
  | h :: t, S i' => h :: set_nth t i' x
  end.

Definition swap {A : Type} (l : list A) (i j : nat) : list A :=
  match nth_error l i, nth_error l j with
  | Some a, Some b => set_nth (set_nth l i b) j a
  | _, _ => l
  end.

(** The reversal loops of [IterateOrder]:
    [for i := 0; i < n/2; i++ { l[i], l[n-1-i] = l[n-1-i], l[i] }]
    (the loop over a string runs [i] up and [j = n-1-i] down while [i < j],
    which are the same swaps). *)
Definition reverse_in_place {A : Type} (l : list A) : list A :=
  let n := List.length l in
  fold_left (fun l i => swap l i (n - 1 - i)) (seq 0 (n / 2)) l.

Section Iteration.

(** The callbacks act on the state of the caller. *)
Context {St : Type}.

(** [func(idx, count int, key, value *Value) bool]; a nil [value] is
    [None]. *)
Definition visitor : Type :=
  Z -> Z -> Value -> option Value -> St -> bool * St.

(** [for idx, x := range items { if !body(idx, x) { return } }]: whether
    the loop ran to its end, and the state it leaves. *)
Fixpoint range_loop {A : Type} (body : Z -> A -> St -> bool * St)
  (idx : Z) (items : list A) (s : St) : bool * St :=
  match items with
  | [] => (true, s)
  | x :: rest =>
      let (continue, s') := body idx x s in
      if continue then range_loop body (idx + 1) rest s' else (false, s')
  end.

(** The keys of a map, in the order [IterateOrder] visits them. *)
Definition ordered_keys (r : reflect.rvalue) (reverse sorted : bool)
  : W sortedKeys :=
  let keys : sortedKeys := reflect.Value_MapKeys r in
  if sorted
  then if reverse
       then sort_Sort _ (sort_Reverse sortedKeys_Less) keys
       else sort_Sort _ sortedKeys_Less keys
  else ret keys.

(** The items of an array or slice, in the order [IterateOrder] visits
    them. *)
Definition ordered_items (r : reflect.rvalue) (reverse sorted : bool)
  : W valuesList :=
  let items : valuesList :=
    map (fun item => {| val := item; safe := false |}) (indexed r) in
  if sorted
  then if reverse
       then sort_Sort _ (sort_Reverse valuesList_Less) items
       else sort_Sort _ valuesList_Less items
  else if reverse then ret (reverse_in_place items)
  else ret items.

(** The code points of a non-empty string, in the order [IterateOrder]
    visits them. *)
Definition ordered_runes (s : string) (reverse sorted : bool) : list Z :=
  let rs := utf8.runes s in
  let rs := if sorted
            then sort_SliceStable _ (fun rs i j => nth i rs 0 <? nth j rs 0) rs
            else rs in
  if reverse then reverse_in_place rs else rs.

(** [IterateOrder] *)
Definition IterateOrder (v : Value) (fn : visitor) (empty : St -> St)
  (reverse sorted : bool) (s : St) : W St :=
  match reflect.Value_Kind (getResolvedValue v) with
  | reflect.Map =>
      keys <- ordered_keys (getResolvedValue v) reverse sorted ;;
      let keyLen := Z.of_nat (List.length keys) in
      let (finished, s') :=
        range_loop
          (fun idx key =>
             let value := reflect.Value_MapIndex (getResolvedValue v) key in
             fn idx keyLen {| val := key; safe := false |}
               (Some {| val := value; safe := false |}))
          0 keys s in
      if finished
      then if keyLen =? 0 then ret (empty s') else ret s'
      else ret s'
  | reflect.Array | reflect.Slice =>
      let itemCount := reflect.Value_Len (getResolvedValue v) in
      items <- ordered_items (getResolvedValue v) reverse sorted ;;
      if 0 <? Z.of_nat (List.length items)
      then
        let (_, s') :=
          range_loop (fun idx item => fn idx itemCount item None) 0 items s in
        ret s'
      else ret (empty s)
  | reflect.String =>
      let str := reflect.Value_String (getResolvedValue v) in
      let charCount := Z.of_nat (List.length (utf8.runes str)) in
      if 0 <? charCount
      then
        let rs := ordered_runes str reverse sorted in
        let (_, s') :=
          range_loop
            (fun i r =>
               fn i charCount
                 {| val := reflect.ValueOf (go_string (utf8.string_of_rune r));
                    safe := false |}
                 None)
            0 rs s in
        ret s'
      else ret (empty s)
  | _ =>
      logf ("Value.Iterate() not available for type: %s" ++ newline)
        (reflect.Kind_String (reflect.Value_Kind (getResolvedValue v))) ;;;
      ret (empty s)
  end.

(** [Iterate] *)
Definition Iterate (v : Value) (fn : visitor) (empty : St -> St) (s : St)
  : W St :=
  IterateOrder v fn empty false false s.

End Iteration.


(* ------------------------------------------------------------------ *)
(** ** Iteration: what the callbacks see *)

(** A call of one of the two callbacks of [IterateOrder]: [visit] with its
    arguments and its answer, or [onEmpty]. *)
Inductive event : Type :=
| Visited (idx count : Z) (key : Value) (value : option Value)
    (continue : bool)
| Emptied.

Section Traced.

Context {St : Type}.

(** The callbacks of the caller, made to record each call. *)
Definition traced_visit (fn : @visitor St) : @visitor (St * list event) :=
  fun idx count key value sl =>
    let (b, s') := fn idx count key value (fst sl) in
    (b, (s', snd sl ++ [Visited idx count key value b])).

Definition traced_empty (empty : St -> St)
  : St * list event -> St * list event :=
  fun sl => (empty (fst sl), snd sl ++ [Emptied]).

(** The calls of [IterateOrder v fn empty reverse sorted] from state [s]. *)
Definition trace (v : Value) (fn : @visitor St) (empty : St -> St)
  (reverse sorted : bool) (s : St) : list event :=
  snd (result (IterateOrder v (traced_visit fn) (traced_empty empty)
                 reverse sorted (s, []))).

(** The elements in the order [IterateOrder] chose: for a map each key with
    its value, for an array or slice each item, for a string each code
    point as a string. *)
Definition visit_order (v : Value) (reverse sorted : bool)
  : list (Value * option Value) :=
  let r := getResolvedValue v in
  match reflect.Value_Kind r with
  | reflect.Map =>
      map (fun key =>
             ({| val := key; safe := false |},
              Some {| val := reflect.Value_MapIndex r key; safe := false |}))
        (result (ordered_keys r reverse sorted))
  | reflect.Array | reflect.Slice =>
      map (fun item => (item, None)) (result (ordered_items r reverse sorted))
  | reflect.String =>
      map (fun c =>
             ({| val := reflect.ValueOf (go_string (utf8.string_of_rune c));
                 safe := false |}, None))
        (ordered_runes (reflect.Value_String r) reverse sorted)
  | _ => []
  end.

(** The [count] that [IterateOrder] passes to [visit]. *)
Definition visit_count (v : Value) (reverse sorted : bool) : Z :=
  let r := getResolvedValue v in
  match reflect.Value_Kind r with
  | reflect.Map =>
      Z.of_nat (List.length (result (ordered_keys r reverse sorted)))
  | reflect.Array | reflect.Slice => reflect.Value_Len r
  | reflect.String =>
      Z.of_nat (List.length (utf8.runes (reflect.Value_String r)))
  | _ => 0
  end.


(** The calls that the loop over [xs] makes from state [s]. *)
Fixpoint calls (fn : @visitor St) (count : Z)
  (xs : list (Value * option Value)) (idx : Z) (s : St) : list event :=
  match xs with
  | [] => []
  | (key, value) :: xs' =>
      let (b, s') := fn idx count key value s in
      Visited idx count key value b ::
        (if b then calls fn count xs' (idx + 1) s' else [])
  end.

End Traced.

(** No element to visit: an empty map, array, slice or string, or a kind
    that [IterateOrder] does not iterate. *)
Definition has_no_element (r : reflect.rvalue) : bool :=
  match reflect.Value_Kind r with
  | reflect.Map | reflect.Array | reflect.Slice => reflect.Value_Len r =? 0
  | reflect.String => String.eqb (reflect.Value_String r) ""
  | _ => true
  end.

(** What is asked of the run-time: a capacity is not below the length. *)
Hypothesis cap_of_runes_ge : forall n : nat, (n <= cap_of_runes n)%nat.

(** What is asked of the sorts: they rearrange. *)
Hypothesis sort_Sort_perm :
  forall (A : Type) (less : list A -> nat -> nat -> W bool) (l : list A),
    Permutation (result (sort_Sort A less l)) l.

Hypothesis sort_SliceStable_perm :
  forall (A : Type) (less : list A -> nat -> nat -> bool) (l : list A),
    Permutation (sort_SliceStable A less l) l.

(** [func (sk sortedKeys) Len() int] *)
Definition sortedKeys_Len (sk : sortedKeys) : Z := Z.of_nat (List.length sk).

(** [l[i], l[j] = l[j], l[i]] with Go's bounds check: an index out of
    range is a run-time panic. *)
Definition swap_checked {A : Type} (l : list A) (i j : Z) : option (list A) :=
  if (0 <=? i) && (i <? Z.of_nat (List.length l)) &&
     (0 <=? j) && (j <? Z.of_nat (List.length l))
  then Some (swap l (Z.to_nat i) (Z.to_nat j))
  else None.

(** [func (sk sortedKeys) Swap(i, j int)] *)
Definition sortedKeys_Swap (sk : sortedKeys) (i j : Z) : option sortedKeys :=
  swap_checked sk i j.

(** [func (vl valuesList) Len() int] *)
Definition valuesList_Len (vl : valuesList) : Z := Z.of_nat (List.length vl).

(** [func (vl valuesList) Swap(i, j int)] *)
Definition valuesList_Swap (vl : valuesList) (i j : Z) : option valuesList :=
  swap_checked vl i j.

(** The key of a recorded call of [visit]. *)
Definition visited_key (e : event) : option Value :=
  match e with
  | Visited _ _ key _ _ => Some key
  | Emptied => None
  end.

(** The keys that the recorded calls visited, in order. *)
Definition visited_keys (log : list event) : list Value :=
  flat_map (fun e => match visited_key e with
                     | Some key => [key]
                     | None => []
                     end) log.

(** The comparison of two Values that both [Less] make: [a] before [b]. *)
Definition less (a b : Value) : bool :=
  result (valuesList_Less [a; b] 0%nat 1%nat).



(* ================================================================== *)
(** * Verification *)
(* ================================================================== *)

(** The families of kinds that the switches of [value.go] list. *)
Definition is_signed (k : reflect.Kind) : bool :=
  match k with
  | reflect.Int | reflect.Int8 | reflect.Int16 | reflect.Int32
  | reflect.Int64 => true
  | _ => false
  end.

Definition is_unsigned (k : reflect.Kind) : bool :=
  match k with
  | reflect.Uint | reflect.Uint8 | reflect.Uint16 | reflect.Uint32
  | reflect.Uint64 => true
  | _ => false
  end.

Definition is_float (k : reflect.Kind) : bool :=
  match k with
  | reflect.Float32 | reflect.Float64 => true
  | _ => false
  end.

(** The number that a Value of numeric kind holds, as a [float64]: for an
    integer the float nearest to it, for a float its value. *)
Definition float64_of_number (v : Value) : float :=
  let r := getResolvedValue v in
  if is_signed (reflect.Value_Kind r)
  then conv.float64_of_int (reflect.Value_Int r)
  else if is_unsigned (reflect.Value_Kind r)
  then conv.float64_of_int (reflect.Value_Uint r)
  else reflect.Value_Float r.

(** The number is one that Go's [int] holds: not an unsigned integer from
    [2^63] on. *)
Definition fits_int (v : Value) : bool :=
  let r := getResolvedValue v in
  negb (is_unsigned (reflect.Value_Kind r)) ||
  (reflect.Value_Uint r <? 2 ^ 63).

(** The number as [castToFloat64] takes it: an integer goes through
    [Integer()], so an unsigned [n] from [2^63] on has become [n - 2^64]
    before it is converted. *)
Definition number_as_cast (v : Value) : float :=
  let r := getResolvedValue v in
  if fits_int v then float64_of_number v
  else conv.float64_of_int (reflect.Value_Uint r - 2 ^ 64).

(** Array, channel, map, slice and string: what has a length. *)
Definition is_container (k : reflect.Kind) : bool :=
  match k with
  | reflect.Array | reflect.Chan | reflect.Map | reflect.Slice
  | reflect.String => true
  | _ => false
  end.

(** The bounds that a slice expression accepts: [0 <= i <= j <= cap]. *)
Definition in_bounds (i j cap : Z) : bool :=
  (0 <=? i) && (i <=? j) && (j <=? cap).

(** What a slice expression cuts from: the array, or the backing array of
    the slice up to its capacity; for a string, its code points followed by
    the zeroed rest of the buffer they were converted into. *)
Definition backing_of_sequence (t : reflect.rtype)
  (items spare : list reflect.rvalue) : list reflect.rvalue :=
  match reflect.Type_Kind t with
  | reflect.Array => items
  | _ => items ++ spare
  end.

Definition backing_of_runes (runes : list Z) : list Z :=
  runes ++ repeat 0 (cap_of_runes (List.length runes) - List.length runes).


(** A dynamic value is not itself of interface kind. *)
Definition concrete (i : reflect.rvalue) : bool :=
  match i with
  | reflect.VIface _ _ => false
  | _ => true
  end.

(** A byte. *)
Definition is_byte (b : Z) : Prop := 0 <= b < 256.

(** No element. *)
Definition is_nil {A : Type} (l : list A) : bool :=
  match l with [] => true | _ => false end.

(** Boolean comparisons on [Z] as propositions, for [lia]. *)
Ltac boolZ :=
  repeat match goal with
  | H : (_ && _) = true |- _ => apply andb_true_iff in H; destruct H
  | H : (_ || _) = true |- _ => apply orb_true_iff in H; destruct H
  | H : (_ && _) = false |- _ => apply andb_false_iff in H; destruct H
  | H : (_ || _) = false |- _ => apply orb_false_iff in H; destruct H
  | H : (_ <? _) = true |- _ => apply Z.ltb_lt in H
  | H : (_ <? _) = false |- _ => apply Z.ltb_ge in H
  | H : (_ <=? _) = true |- _ => apply Z.leb_le in H
  | H : (_ <=? _) = false |- _ => apply Z.leb_gt in H
  | H : (_ =? _) = true |- _ => apply Z.eqb_eq in H
  | H : (_ =? _) = false |- _ => apply Z.eqb_neq in H
  end.

(** Rewrite each comparison of the goal to the truth value that [lia] finds. *)
Ltac decide_Z :=
  repeat match goal with
  | |- context [?a <? ?b] =>
      first [ rewrite (proj2 (Z.ltb_lt a b)) by (Z.div_mod_to_equations; lia)
            | rewrite (proj2 (Z.ltb_ge a b)) by (Z.div_mod_to_equations; lia) ]
  | |- context [?a <=? ?b] =>
      first [ rewrite (proj2 (Z.leb_le a b)) by (Z.div_mod_to_equations; lia)
            | rewrite (proj2 (Z.leb_gt a b)) by (Z.div_mod_to_equations; lia) ]
  end.

Lemma int_of_Z_zero (n : Z) :
  - 2 ^ 63 <= n < 2 ^ 64 -> (conv.int_of_Z n =? 0) = (n =? 0).
Proof.
  intros H. unfold conv.int_of_Z.
  destruct (Z.eqb_spec n 0) as [->|Hn]; [reflexivity|].
  apply Z.eqb_neq. intros E.
  assert (Hm : (n + 2 ^ 63) mod 2 ^ 64 = 2 ^ 63) by lia.
  destruct (Z_lt_le_dec n (2 ^ 63)) as [Hlt|Hge].
  - rewrite Z.mod_small in Hm by lia. lia.
  - replace (n + 2 ^ 63) with ((n - 2 ^ 63) + 1 * 2 ^ 64) in Hm by lia.
    rewrite Z.mod_add in Hm by lia.
    rewrite Z.mod_small in Hm by lia. lia.
Qed.

Lemma signed_payload (r : reflect.rvalue) :
  reflect.well_formed r = true ->
  is_signed (reflect.Value_Kind r) = true ->
  - 2 ^ 63 <= reflect.Value_Int r < 2 ^ 63.
Proof.
  intros W K.
  destruct r; cbn in *; try lia;
    destruct (reflect.Type_Kind t); cbn in *; try discriminate; lia.
Qed.

Lemma unsigned_payload (r : reflect.rvalue) :
  reflect.well_formed r = true ->
  is_unsigned (reflect.Value_Kind r) = true ->
  0 <= reflect.Value_Uint r < 2 ^ 64.
Proof.
  intros W K.
  destruct r; cbn in *; try lia;
    destruct (reflect.Type_Kind t); cbn in *; try discriminate; lia.
Qed.

(** C1.  [Negate] by the kind of the resolved value: an integer gives the
    integer 0 when it is nonzero and 1 when it is zero; a float gives 0.0
    when it is nonzero and 1.1 when it is zero; an array, channel, map,
    slice or string gives the boolean "its length is zero"; a boolean gives
    its complement; a struct gives false; any other kind gives true. *)
Theorem Negate_by_kind (v : Value) :
  reflect.well_formed (getResolvedValue v) = true ->
  let r := getResolvedValue v in
  let k := reflect.Value_Kind r in
  result (Negate v) =
  AsValue
    (if is_signed k
     then go_int (if reflect.Value_Int r =? 0 then 1 else 0)
     else if is_unsigned k
     then go_int (if reflect.Value_Uint r =? 0 then 1 else 0)
     else if is_float k
     then go_float64 (if PrimFloat.eqb (reflect.Value_Float r) 0
                      then 1.1 else 0)
     else if is_container k
     then go_bool (reflect.Value_Len r =? 0)
     else if k == reflect.Bool
     then go_bool (negb (reflect.Value_Bool r))
     else if k == reflect.Struct
     then go_bool false
     else go_bool true).
Proof.
  intros Wf r k.
  pose proof (signed_payload _ Wf) as Hs.
  pose proof (unsigned_payload _ Wf) as Hu.
  fold r in Hs, Hu. fold k in Hs, Hu.
  unfold Negate, Integer, Float. fold r. fold k.
  destruct k; cbn in *;
    try reflexivity;
    try (rewrite int_of_Z_zero by (specialize (Hs eq_refl); lia);
         destruct (reflect.Value_Int r =? 0); reflexivity);
    try (rewrite int_of_Z_zero by (specialize (Hu eq_refl); lia);
         destruct (reflect.Value_Uint r =? 0); reflexivity);
    try (destruct (PrimFloat.eqb (reflect.Value_Float r) 0); reflexivity).
Qed.

(** C4.  [IsTrue] by the kind of the resolved value: a number is true when
    it is nonzero, an array, channel, map, slice or string when its length
    is positive, a boolean when it is true, a struct always; any other kind,
    the nil value included, is false. *)
Theorem IsTrue_by_kind (v : Value) :
  let r := getResolvedValue v in
  let k := reflect.Value_Kind r in
  result (IsTrue v) =
    (if is_signed k then negb (reflect.Value_Int r =? 0)
     else if is_unsigned k then negb (reflect.Value_Uint r =? 0)
     else if is_float k then negb (PrimFloat.eqb (reflect.Value_Float r) 0)
     else if is_container k then 0 <? reflect.Value_Len r
     else if k == reflect.Bool then reflect.Value_Bool r
     else if k == reflect.Struct then true
     else false)
  /\ (IsNil v = true -> result (IsTrue v) = false).
Proof.
  intros r k. split.
  - unfold IsTrue. fold r. fold k. destruct k; reflexivity.
  - unfold IsNil, IsTrue. fold r. intros N.
    destruct r; try discriminate. reflexivity.
Qed.

Lemma binary_round_aux_opp (s : bool) (mx ex : Z) (lx : location) :
  binary_round_aux prec emax (negb s) mx ex lx
  = SFopp (binary_round_aux prec emax s mx ex lx).
Proof.
  unfold binary_round_aux.
  destruct (shr_fexp prec emax mx ex lx) as [mrs' e'].
  destruct (shr_fexp prec emax _ e' loc_Exact) as [mrs'' e''].
  destruct (shr_m mrs''); try reflexivity.
  destruct (e'' <=? emax - prec); reflexivity.
Qed.

Lemma binary_round_opp (s : bool) (m : positive) (e : Z) :
  binary_round prec emax (negb s) m e = SFopp (binary_round prec emax s m e).
Proof.
  unfold binary_round.
  destruct (shl_align m e _) as [mz ez].
  apply binary_round_aux_opp.
Qed.

(** [y - x] compares as [-(x - y)]: they differ in the sign of a zero only. *)
Lemma SFcompare_sub_swap (X Y E : spec_float) :
  SFcompare (SF64sub Y X) E = SFcompare (SFopp (SF64sub X Y)) E.
Proof.
  unfold SF64sub.
  destruct X as [sx|sx| |sx mx ex], Y as [sy|sy| |sy my ey];
    try reflexivity;
    try (destruct sx, sy; reflexivity).
  cbn [SFsub].
  rewrite (Z.min_comm ey ex).
  set (ez := Z.min ex ey).
  set (a := cond_Zopp sx (Z.pos (fst (shl_align mx ex ez)))).
  set (b := cond_Zopp sy (Z.pos (fst (shl_align my ey ez)))).
  replace (b - a) with (- (a - b)) by lia.
  destruct (a - b) as [|p|p]; cbn [Z.opp binary_normalize].
  - reflexivity.
  - rewrite (binary_round_opp false). reflexivity.
  - rewrite <- (binary_round_opp true). reflexivity.
Qed.

Lemma SFltb_both_signs (D E : spec_float) :
  SFltb D E && SFltb (SFopp D) E = SFltb (SFabs D) E.
Proof.
  unfold SFltb.
  destruct D as [s|s| |s m e], E as [s'|s'| |s' m' e'];
    try reflexivity;
    try (destruct s; reflexivity);
    try (destruct s, s'; reflexivity).
  destruct s, s'; cbn; try reflexivity;
    match goal with
    | |- context [match ?c with _ => _ end] => destruct c
    end; try reflexivity;
    match goal with
    | |- context [match ?c with _ => _ end] => destruct c
    end; reflexivity.
Qed.

(** The two one-sided tests of [EqualValueTo] are one test of the absolute
    difference, for every pair of floats (infinities and NaN included). *)
Lemma ltb_abs_sub (x y e : float) :
  (PrimFloat.ltb (x - y) e && PrimFloat.ltb (y - x) e
   = PrimFloat.ltb (abs (x - y)) e)%float.
Proof.
  rewrite !ltb_spec, abs_spec, !sub_spec.
  unfold SFltb at 2. rewrite SFcompare_sub_swap.
  apply SFltb_both_signs.
Qed.

Lemma castToFloat64_silent (v : Value) :
  IsNumber v = true -> diagnostics (castToFloat64 v) = [].
Proof.
  unfold IsNumber, castToFloat64, IsInteger, IsFloat, Integer, Float.
  destruct (reflect.Value_Kind (getResolvedValue v)); cbn;
    intros H; try discriminate; reflexivity.
Qed.

(** The conversion to [int] keeps what fits and wraps what does not. *)
Lemma int_of_Z_fits (n : Z) : - 2 ^ 63 <= n < 2 ^ 63 -> conv.int_of_Z n = n.
Proof.
  intros H. unfold conv.int_of_Z. rewrite Z.mod_small by lia. lia.
Qed.

Lemma int_of_Z_wraps (n : Z) :
  2 ^ 63 <= n < 2 ^ 64 -> conv.int_of_Z n = n - 2 ^ 64.
Proof.
  intros H. unfold conv.int_of_Z.
  replace (n + 2 ^ 63) with ((n - 2 ^ 63) + 1 * 2 ^ 64) by lia.
  rewrite Z.mod_add by lia. rewrite Z.mod_small by lia. lia.
Qed.

(** What [castToFloat64] returns for a number. *)
Lemma castToFloat64_of_number (v : Value) :
  reflect.well_formed (getResolvedValue v) = true ->
  IsNumber v = true ->
  castToFloat64 v = ret (number_as_cast v).
Proof.
  intros Wf N.
  pose proof (signed_payload _ Wf) as Sg.
  pose proof (unsigned_payload _ Wf) as Us.
  unfold castToFloat64, number_as_cast, fits_int, float64_of_number,
    IsInteger, Integer, Float.
  unfold IsNumber, IsInteger, IsFloat in N.
  destruct (reflect.Value_Kind (getResolvedValue v));
    cbn [reflect.Kind_eqb is_signed is_unsigned orb negb] in *;
    try discriminate N; cbn [bind ret app orb negb];
    try reflexivity;
    try (rewrite int_of_Z_fits by (apply Sg; reflexivity); reflexivity);
    (specialize (Us eq_refl);
     destruct (Z.ltb_spec (reflect.Value_Uint (getResolvedValue v)) (2 ^ 63));
     [rewrite int_of_Z_fits by lia | rewrite int_of_Z_wraps by lia];
     reflexivity).
Qed.

(** C2, as the code has it.  On two numbers, of any mix of the integer and
    float families, [EqualValueTo] is true exactly when the absolute
    difference of the two numbers as [castToFloat64] takes them is below
    [1e-9].  For numbers that [int] holds (every signed integer, every
    float, an unsigned integer below [2^63]) that is the absolute
    difference of the two numbers as [float64]. *)
Theorem EqualValueTo_numeric (a b : Value) :
  reflect.well_formed (getResolvedValue a) = true ->
  reflect.well_formed (getResolvedValue b) = true ->
  IsNumber a = true -> IsNumber b = true ->
  EqualValueTo a b =
  ret (PrimFloat.ltb (abs (number_as_cast a - number_as_cast b)) epsilon) /\
  (fits_int a = true -> fits_int b = true ->
   EqualValueTo a b =
   ret (PrimFloat.ltb
          (abs (float64_of_number a - float64_of_number b)) epsilon)).
Proof.
  intros Wa Wb Ha Hb.
  assert (E : EqualValueTo a b =
              ret (PrimFloat.ltb
                     (abs (number_as_cast a - number_as_cast b)) epsilon)).
  { unfold EqualValueTo. rewrite Ha, Hb. cbn [andb].
    rewrite (castToFloat64_of_number a Wa Ha),
      (castToFloat64_of_number b Wb Hb).
    cbn [bind ret app]. unfold ret. f_equal. apply ltb_abs_sub. }
  split; [exact E|].
  intros Fa Fb. rewrite E. unfold number_as_cast. rewrite Fa, Fb.
  reflexivity.
Qed.


Lemma Kind_eqb_eq (a b : reflect.Kind) : (a == b) = true <-> a = b.
Proof.
  unfold reflect.Kind_eqb. destruct (reflect.Kind_eq_dec a b); split;
    intros; try assumption; try reflexivity; try discriminate; contradiction.
Qed.

Lemma Kind_eqb_refl (a : reflect.Kind) : (a == a) = true.
Proof. apply Kind_eqb_eq. reflexivity. Qed.

Lemma Kind_eqb_neq (a b : reflect.Kind) : a <> b -> (a == b) = false.
Proof.
  intros N. destruct (a == b) eqn:E; [|reflexivity].
  apply Kind_eqb_eq in E. contradiction.
Qed.

Lemma rtype_eqb_eq (a b : reflect.rtype) :
  reflect.rtype_eqb a b = true <-> a = b.
Proof.
  unfold reflect.rtype_eqb. destruct (reflect.rtype_eq_dec a b); split;
    intros; try assumption; try reflexivity; try discriminate; contradiction.
Qed.

Lemma rtype_eqb_refl (a : reflect.rtype) : reflect.rtype_eqb a a = true.
Proof. apply rtype_eqb_eq. reflexivity. Qed.

(** A reference is resolved to its target. *)
Lemma getResolvedValue_reference (v : Value) t addr e :
  val v = reflect.VPtr t addr e -> reflect.Type_Kind t = reflect.Ptr ->
  getResolvedValue v = e.
Proof.
  intros Hv Ht. unfold getResolvedValue. rewrite Hv. cbn.
  unfold reflect.Value_Kind. cbn. rewrite Ht. reflexivity.
Qed.

(** Anything else is its own resolved value. *)
Lemma getResolvedValue_direct (v : Value) :
  reflect.Value_Kind (val v) <> reflect.Ptr -> getResolvedValue v = val v.
Proof.
  intros N. unfold getResolvedValue.
  rewrite (Kind_eqb_neq _ _ N), andb_false_r. reflexivity.
Qed.

(** [IsTime] and [Time] assert the type of the raw datum: a reference is
    no [time.Time], whatever it refers to. *)
Lemma IsTime_of_reference (v : Value) t addr e :
  val v = reflect.VPtr t addr e -> reflect.Type_Kind t = reflect.Ptr ->
  IsTime v = false /\ Time v = time_zero.
Proof.
  intros Hv Ht.
  assert (T : type_assert time_Time (Interface v) = false).
  { unfold type_assert, Interface. rewrite Hv. cbn.
    destruct (reflect.rtype_eqb t time_Time) eqn:E; [|reflexivity].
    apply rtype_eqb_eq in E. subst t. discriminate Ht. }
  split; [exact T|]. unfold Time. rewrite T. reflexivity.
Qed.

(** C3, as the code has it.  Let the raw datum of [v] be a reference to [e].
    The kind predicates [IsString], [IsBool], [IsFloat], [IsInteger],
    [IsNumber], [IsNil] and the coercions [Bool], [Integer], [Float] read
    the kind and the datum of [e] itself: when [e] is no reference they
    answer as on a Value of [e], and [String] does too provided the
    reference and [e] render alike through [fmt.Stringer] (that check is
    made on the raw datum); when [e] is again a reference it is not followed:
    every kind predicate is false and the coercions give their fallback. *)
Theorem reference_resolved_one_level (v : Value) t addr e :
  val v = reflect.VPtr t addr e -> reflect.Type_Kind t = reflect.Ptr ->
  let target := {| val := e; safe := safe v |} in
  let k := reflect.Value_Kind e in
  (getResolvedValue v = e /\
   IsString v = (k == reflect.String) /\
   IsBool v = (k == reflect.Bool) /\
   IsFloat v = is_float k /\
   IsInteger v = (is_signed k || is_unsigned k) /\
   IsNumber v = (is_signed k || is_unsigned k || is_float k) /\
   IsNil v = negb (reflect.Value_IsValid e)) /\
  (k <> reflect.Ptr ->
   IsString v = IsString target /\ IsBool v = IsBool target /\
   IsFloat v = IsFloat target /\ IsInteger v = IsInteger target /\
   IsNumber v = IsNumber target /\ IsNil v = IsNil target /\
   Bool v = Bool target /\ Integer v = Integer target /\
   Float v = Float target /\
   (fmt_Stringer (val v) = fmt_Stringer (Interface target) ->
    String v = String target)) /\
  (k = reflect.Ptr ->
   IsString v = false /\ IsBool v = false /\ IsFloat v = false /\
   IsInteger v = false /\ IsNumber v = false /\ IsNil v = false /\
   result (Bool v) = false /\ result (Integer v) = 0 /\
   result (Float v) = 0%float).
Proof.
  intros Hv Ht target k.
  pose proof (getResolvedValue_reference v t addr e Hv Ht) as R.
  split; [|split].
  - unfold IsNumber, IsString, IsBool, IsFloat, IsInteger, IsNil.
    rewrite R. fold k.
    repeat split; try reflexivity; destruct k; reflexivity.
  - intros Hk.
    assert (R' : getResolvedValue target = e)
      by (apply (getResolvedValue_direct target); assumption).
    unfold IsString, IsBool, IsFloat, IsInteger, IsNumber, IsNil,
      Bool, Integer, Float, String, IsInteger, IsFloat, IsNil, Bool.
    rewrite R, R'.
    repeat split; try reflexivity.
    intros Hs. unfold Interface at 1. rewrite Hv.
    cbn [reflect.Value_IsValid reflect.Value_Interface].
    rewrite <- Hv, Hs. reflexivity.
  - intros Hk. unfold IsString, IsBool, IsFloat, IsInteger, IsNumber, IsNil,
      Bool, Integer, Float, IsInteger, IsFloat.
    rewrite R. fold k. rewrite Hk.
    repeat split; try reflexivity.
    destruct e; try reflexivity. discriminate Hk.
Qed.

(** Facts about the UTF-8 conversions. *)
Lemma bytes_are_bytes (s : string) : Forall is_byte (utf8.bytes s).
Proof.
  unfold utf8.bytes. induction s as [|a s IH]; cbn; constructor; [|exact IH].
  unfold is_byte. pose proof (N_ascii_bounded a). lia.
Qed.

Lemma bytes_of_bytes (bs : list Z) :
  Forall is_byte bs -> utf8.bytes (utf8.of_bytes bs) = bs.
Proof.
  unfold utf8.bytes, utf8.of_bytes. intros H.
  rewrite list_ascii_of_string_of_list_ascii, map_map.
  induction H as [|b bs Hb _ IH]; cbn; [reflexivity|].
  rewrite IH. f_equal.
  rewrite N_ascii_embedding by (unfold is_byte in Hb; lia).
  unfold is_byte in Hb. lia.
Qed.

Lemma valid_rune_spec (r : Z) :
  utf8.valid_rune r = true <-> (0 <= r <= 0xD7FF \/ 0xE000 <= r <= 0x10FFFF).
Proof.
  unfold utf8.valid_rune, utf8.within. split.
  - intros H. boolZ; lia.
  - intros [H|H]; apply orb_true_iff; [left|right];
      apply andb_true_iff; split; apply Z.leb_le; lia.
Qed.

Lemma encode_valid_bytes (r : Z) :
  utf8.valid_rune r = true -> Forall is_byte (utf8.encode_valid r).
Proof.
  intros V. apply valid_rune_spec in V. unfold utf8.encode_valid.
  repeat match goal with
  | |- context [if ?c then _ else _] => destruct c eqn:?
  end; boolZ; repeat (apply Forall_cons || apply Forall_nil);
    unfold is_byte; Z.div_mod_to_equations; lia.
Qed.

Lemma within_spec (lo hi b : Z) :
  utf8.within lo hi b = true <-> lo <= b <= hi.
Proof.
  unfold utf8.within. rewrite andb_true_iff, !Z.leb_le. reflexivity.
Qed.

(** What [first] tells about a first byte. *)
Lemma first_inv (b0 : Z) (k : nat) (lo hi : Z) :
  utf8.first b0 = Some (k, lo, hi) ->
  (k = 0%nat /\ b0 < 0x80) \/
  (k = 1%nat /\ 0xC2 <= b0 < 0xE0 /\ lo = 0x80 /\ hi = 0xBF) \/
  (k = 2%nat /\ 0xE0 <= b0 < 0xF0 /\ 0x80 <= lo /\ hi <= 0xBF /\
   (b0 = 0xE0 -> lo = 0xA0) /\ (b0 = 0xED -> hi = 0x9F)) \/
  (k = 3%nat /\ 0xF0 <= b0 <= 0xF4 /\ 0x80 <= lo /\ hi <= 0xBF /\
   (b0 = 0xF0 -> lo = 0x90) /\ (b0 = 0xF4 -> hi = 0x8F)).
Proof.
  unfold utf8.first.
  repeat match goal with
  | |- context [if ?c then _ else _] => destruct c eqn:?
  end; intros H; inversion H; subst; boolZ; lia.
Qed.

Lemma first_of_range (b0 : Z) :
  utf8.first b0 =
  if b0 <? 0x80 then Some (0%nat, 0, 0)
  else if b0 <? 0xC2 then None
  else if b0 <? 0xE0 then Some (1%nat, 0x80, 0xBF)
  else if b0 <? 0xF0
  then Some (2%nat, if b0 =? 0xE0 then 0xA0 else 0x80,
             if b0 =? 0xED then 0x9F else 0xBF)
  else if b0 <=? 0xF4
  then Some (3%nat, if b0 =? 0xF0 then 0x90 else 0x80,
             if b0 =? 0xF4 then 0x8F else 0xBF)
  else None.
Proof.
  unfold utf8.first.
  repeat match goal with
  | |- context [if ?c then _ else _] => destruct c eqn:?
  end; boolZ; try reflexivity; exfalso; lia.
Qed.

Lemma decode_encode_valid (r : Z) (rest : list Z) :
  utf8.valid_rune r = true ->
  utf8.decode (utf8.encode_valid r ++ rest) = r :: utf8.decode rest.
Proof.
  intros V. apply valid_rune_spec in V. unfold utf8.encode_valid.
  destruct (r <? 0x80) eqn:E1; [|destruct (r <? 0x800) eqn:E2;
    [|destruct (r <? 0x10000) eqn:E3]]; boolZ; cbn [app utf8.decode];
    rewrite first_of_range; unfold utf8.cont, utf8.within.
  - decide_Z. reflexivity.
  - decide_Z. cbn [andb]. f_equal. Z.div_mod_to_equations; lia.
  - decide_Z.
    destruct (_ =? 0xE0) eqn:A, (_ =? 0xED) eqn:B; boolZ;
      decide_Z; cbn [andb]; f_equal; Z.div_mod_to_equations; lia.
  - decide_Z.
    destruct (_ =? 0xF0) eqn:A, (_ =? 0xF4) eqn:B; boolZ;
      decide_Z; cbn [andb]; f_equal; Z.div_mod_to_equations; lia.
Qed.

Lemma RuneError_valid : utf8.valid_rune utf8.RuneError = true.
Proof. reflexivity. Qed.

Lemma decode_valid_runes (n : nat) : forall bs,
  (List.length bs <= n)%nat -> Forall is_byte bs ->
  Forall (fun r => utf8.valid_rune r = true) (utf8.decode bs).
Proof.
  induction n as [|n IH]; intros bs L B.
  - destruct bs; [constructor | cbn in L; lia].
  - destruct bs as [|b0 r1]; [constructor|].
    cbn in L. inversion B as [|? ? B0 B1]; subst.
    assert (IH1 : Forall (fun r => utf8.valid_rune r = true) (utf8.decode r1))
      by (apply IH; [lia | assumption]).
    assert (E : Forall (fun r => utf8.valid_rune r = true)
                  (utf8.RuneError :: utf8.decode r1))
      by (constructor; [reflexivity | exact IH1]).
    unfold is_byte in B0.
    cbn [utf8.decode].
    destruct (utf8.first b0) as [[[k lo] hi]|] eqn:F; [|exact E].
    apply first_inv in F.
    destruct F as [[-> F]|[[-> F]|[[-> F]|[-> F]]]].
    + constructor; [|exact IH1]. apply valid_rune_spec. lia.
    + destruct r1 as [|b1 r2]; [exact E|].
      destruct (utf8.within lo hi b1) eqn:W1; [|exact E].
      apply within_spec in W1.
      inversion B1 as [|? ? B1' B2]; subst.
      constructor; [|apply IH; [cbn in L; lia | assumption]].
      apply valid_rune_spec. Z.div_mod_to_equations; lia.
    + destruct r1 as [|b1 [|b2 r3]]; try exact E.
      destruct (utf8.within lo hi b1 && utf8.cont b2) eqn:W1; [|exact E].
      apply andb_true_iff in W1. destruct W1 as [W1 W2].
      apply within_spec in W1. apply within_spec in W2.
      inversion B1 as [|? ? B1' B2]; subst.
      inversion B2 as [|? ? B2' B3]; subst.
      constructor; [|apply IH; [cbn in L; lia | assumption]].
      apply valid_rune_spec. Z.div_mod_to_equations; lia.
    + destruct r1 as [|b1 [|b2 [|b3 r4]]]; try exact E.
      destruct (utf8.within lo hi b1 && utf8.cont b2 && utf8.cont b3) eqn:W1;
        [|exact E].
      apply andb_true_iff in W1. destruct W1 as [W1 W3].
      apply andb_true_iff in W1. destruct W1 as [W1 W2].
      apply within_spec in W1. apply within_spec in W2.
      apply within_spec in W3.
      inversion B1 as [|? ? B1' B2]; subst.
      inversion B2 as [|? ? B2' B3]; subst.
      inversion B3 as [|? ? B3' B4]; subst.
      constructor; [|apply IH; [cbn in L; lia | assumption]].
      apply valid_rune_spec. Z.div_mod_to_equations; lia.
Qed.

(** A code point of a string, converted back to a string, is that one code
    point. *)
Lemma runes_string_of_rune (s : string) (r : Z) :
  In r (utf8.runes s) -> utf8.runes (utf8.string_of_rune r) = [r].
Proof.
  intros I.
  assert (V : utf8.valid_rune r = true).
  { pose proof (decode_valid_runes _ _ (le_n _) (bytes_are_bytes s)) as F.
    rewrite Forall_forall in F. apply F. exact I. }
  unfold utf8.runes, utf8.string_of_rune, utf8.encode. rewrite V.
  rewrite bytes_of_bytes by (apply encode_valid_bytes; exact V).
  rewrite <- (app_nil_r (utf8.encode_valid r)).
  rewrite decode_encode_valid by exact V. reflexivity.
Qed.

(** C9.  [Index(i)] for [0 <= i].  On an array or slice: the nil Value when
    [i] is at or past the length, else the [i]-th element; on a string: the
    [i]-th code point as a string of that one code point when [i] is below
    the number of code points, else the empty string.  No case emits a
    diagnostic. *)
Theorem Index_within_contract (v : Value) (i : Z) :
  0 <= i ->
  let r := getResolvedValue v in
  (forall t items spare,
     r = reflect.VSeq t items spare ->
     reflect.Type_Kind t = reflect.Array \/
     reflect.Type_Kind t = reflect.Slice ->
     Index v i =
     Some (ret (AsValue
                  (if Z.of_nat (List.length items) <=? i then go_nil
                   else reflect.Value_Interface
                          (nth (Z.to_nat i) items reflect.VInvalid))))) /\
  (forall t s,
     r = reflect.VString t s ->
     reflect.Type_Kind t = reflect.String ->
     let runes := utf8.runes s in
     let c := nth (Z.to_nat i) runes 0 in
     Index v i =
     Some (ret (AsValue
                  (go_string
                     (if i <? Z.of_nat (List.length runes)
                      then utf8.string_of_rune c
                      else ""%string)))) /\
     (i < Z.of_nat (List.length runes) ->
      utf8.runes (utf8.string_of_rune c) = [c])).
Proof.
  intros Hi r. split.
  - intros t items spare Hr Hk.
    assert (K : reflect.Value_Kind r = reflect.Type_Kind t)
      by (rewrite Hr; reflexivity).
    unfold Index, Len. fold r. rewrite K.
    assert (E : (let (n, l) := ret (reflect.Value_Len r) in
                 if n <=? i
                 then Some (AsValue go_nil, l)
                 else match reflect.Value_Index r i with
                      | Some item =>
                          Some (AsValue (reflect.Value_Interface item), l)
                      | None => None
                      end) =
                Some (ret (AsValue
                  (if Z.of_nat (List.length items) <=? i then go_nil
                   else reflect.Value_Interface
                          (nth (Z.to_nat i) items reflect.VInvalid))))).
    { rewrite Hr. cbn [ret reflect.Value_Len reflect.Value_Index].
      destruct (Z.of_nat (List.length items) <=? i) eqn:L; [reflexivity|].
      apply Z.leb_gt in L.
      rewrite (proj2 (Z.ltb_ge i 0)) by lia.
      rewrite (nth_error_nth' items reflect.VInvalid) by lia.
      reflexivity. }
    destruct Hk as [Hk|Hk]; rewrite Hk; exact E.
  - intros t s Hr Hk runes c.
    assert (K : reflect.Value_Kind r = reflect.String)
      by (rewrite Hr; exact Hk).
    split.
    + unfold Index. fold r. rewrite K. rewrite Hr.
      cbn [reflect.Value_String]. fold runes.
      destruct (i <? Z.of_nat (List.length runes)) eqn:L; [|reflexivity].
      apply Z.ltb_lt in L. unfold index_runes.
      rewrite (proj2 (Z.ltb_ge i 0)) by lia.
      rewrite (nth_error_nth' runes 0) by lia.
      reflexivity.
    + intros L. apply (runes_string_of_rune s).
      subst c runes. apply nth_In. lia.
Qed.

Local Open Scope nat_scope.

Lemma length_set_nth {A : Type} (l : list A) (i : nat) (x : A) :
  List.length (set_nth l i x) = List.length l.
Proof.
  revert i. induction l as [|h t IH]; intros [|i]; cbn; try reflexivity.
  rewrite IH. reflexivity.
Qed.

Lemma nth_set_nth {A : Type} (l : list A) (i p : nat) (x d : A) :
  nth p (set_nth l i x) d =
  if (p =? i) && (i <? List.length l) then x else nth p l d.
Proof.
  revert i p. induction l as [|h t IH]; intros i p.
  - cbn. rewrite andb_false_r. destruct i; reflexivity.
  - destruct i as [|i], p as [|p]; cbn [set_nth nth]; try reflexivity.
    rewrite IH. reflexivity.
Qed.

Lemma length_swap {A : Type} (l : list A) (i j : nat) :
  List.length (swap l i j) = List.length l.
Proof.
  unfold swap. destruct (nth_error l i), (nth_error l j); try reflexivity.
  rewrite !length_set_nth. reflexivity.
Qed.

Lemma nth_swap {A : Type} (l : list A) (i j p : nat) (d : A) :
  i < List.length l -> j < List.length l ->
  nth p (swap l i j) d =
  if p =? j then nth i l d else if p =? i then nth j l d else nth p l d.
Proof.
  intros Hi Hj. unfold swap.
  rewrite (nth_error_nth' l d Hi), (nth_error_nth' l d Hj).
  rewrite !nth_set_nth, length_set_nth.
  rewrite (proj2 (Nat.ltb_lt _ _) Hi), (proj2 (Nat.ltb_lt _ _) Hj).
  rewrite !andb_true_r. reflexivity.
Qed.

(** The state of the reversal loop after [k] swaps. *)
Lemma reverse_steps {A : Type} (l : list A) (d : A) (k : nat) :
  2 * k <= List.length l ->
  let n := List.length l in
  let l' := fold_left (fun l i => swap l i (n - 1 - i)) (seq 0 k) l in
  List.length l' = n /\
  forall p, p < n ->
    nth p l' d =
    if (p <? k) || (n - k <=? p) then nth (n - 1 - p) l d else nth p l d.
Proof.
  intros Hk n. induction k as [|k IH].
  - cbn. split; [reflexivity|]. intros p Hp.
    replace (n - 0 <=? p) with false by (symmetry; apply Nat.leb_gt; lia).
    reflexivity.
  - rewrite seq_S, fold_left_app. cbn [fold_left Nat.add].
    destruct IH as [L N]; [lia|].
    set (m := fold_left (fun l i => swap l i (n - 1 - i)) (seq 0 k) l) in *.
    cbn zeta in *.
    split; [rewrite length_swap; exact L|].
    intros p Hp.
    rewrite nth_swap by (rewrite L; fold n; lia).
    rewrite (N k), (N (n - 1 - k)), (N p) by (fold n; lia).
    destruct (Nat.eqb_spec p (n - 1 - k)) as [->|E1].
    + replace (k <? k) with false by (symmetry; apply Nat.ltb_ge; lia).
      replace (n - k <=? k) with false by (symmetry; apply Nat.leb_gt; lia).
      replace (n - S k <=? n - 1 - k) with true
        by (symmetry; apply Nat.leb_le; lia).
      rewrite orb_true_r. cbn [orb]. f_equal. lia.
    + destruct (Nat.eqb_spec p k) as [->|E2].
      * replace (n - 1 - k <? k) with false
          by (symmetry; apply Nat.ltb_ge; lia).
        replace (n - k <=? n - 1 - k) with false
          by (symmetry; apply Nat.leb_gt; lia).
        replace (k <? S k) with true by (symmetry; apply Nat.ltb_lt; lia).
        reflexivity.
      * replace (p <? S k) with (p <? k).
        2:{ destruct (Nat.ltb_spec p k), (Nat.ltb_spec p (S k));
              try reflexivity; lia. }
        replace (n - S k <=? p) with (n - k <=? p).
        2:{ destruct (Nat.leb_spec (n - k) p), (Nat.leb_spec (n - S k) p);
              try reflexivity; lia. }
        reflexivity.
Qed.

(** The reversal loop reverses. *)
Lemma reverse_in_place_rev {A : Type} (l : list A) :
  reverse_in_place l = rev l.
Proof.
  destruct l as [|d t]; [reflexivity|].
  set (l := d :: t).
  pose proof (Nat.div_mod_eq (List.length l) 2) as D.
  pose proof (Nat.mod_upper_bound (List.length l) 2 ltac:(lia)) as U.
  destruct (reverse_steps l d (List.length l / 2) ltac:(lia)) as [L N].
  unfold reverse_in_place.
  apply (nth_ext _ _ d d).
  - rewrite L, length_rev. reflexivity.
  - intros p Hp. rewrite L in Hp.
    rewrite (N p Hp), rev_nth by exact Hp.
    destruct ((p <? List.length l / 2)
              || (List.length l - List.length l / 2 <=? p)) eqn:E.
    + f_equal. lia.
    + apply orb_false_iff in E. destruct E as [E1 E2].
      apply Nat.ltb_ge in E1. apply Nat.leb_gt in E2.
      f_equal. lia.
Qed.

Local Close Scope nat_scope.


(* ------------------------------------------------------------------ *)
(** ** Iteration *)

Lemma result_bind {A B : Type} (m : W A) (k : A -> W B) :
  result (bind m k) = result (k (result m)).
Proof.
  unfold result, bind. destruct m as [a l1]. cbn.
  destruct (k a). reflexivity.
Qed.

Lemma nth_error_indices {A : Type} (l pre : list A) :
  flat_map (fun i => match nth_error (pre ++ l) i with
                     | Some x => [x]
                     | None => []
                     end)
    (seq (List.length pre) (List.length l)) = l.
Proof.
  revert pre. induction l as [|x l IH]; intros pre; [reflexivity|].
  cbn [List.length seq flat_map].
  rewrite nth_error_app2, Nat.sub_diag by apply le_n. cbn [nth_error app].
  f_equal.
  specialize (IH (pre ++ [x])).
  rewrite <- app_assoc, length_app, Nat.add_comm in IH. exact IH.
Qed.

(** A loop over the indices of an array or slice reads its elements. *)
Lemma indexed_elements (t : reflect.rtype)
  (items spare : list reflect.rvalue) :
  indexed (reflect.VSeq t items spare) = items.
Proof.
  unfold indexed. cbn [reflect.Value_Len reflect.Value_Index].
  rewrite Nat2Z.id.
  transitivity
    (flat_map (fun i => match nth_error ([] ++ items) i with
                        | Some x => [x]
                        | None => []
                        end)
       (seq (List.length (@nil reflect.rvalue)) (List.length items)));
    [|apply nth_error_indices].
  cbn [List.length app].
  apply flat_map_ext. intros i.
  rewrite (proj2 (Z.ltb_ge (Z.of_nat i) 0)) by lia.
  rewrite Nat2Z.id. reflexivity.
Qed.

Lemma indexed_length (r : reflect.rvalue) :
  indexed r <> [] -> reflect.Value_Len r = Z.of_nat (List.length (indexed r)).
Proof.
  destruct r; try (rewrite indexed_elements; reflexivity);
    intros N; exfalso; apply N; unfold indexed;
    cbn [reflect.Value_Index];
    induction (seq 0 _) as [|i l IH]; try reflexivity; exact IH.
Qed.

Section LoopFacts.

Context {St : Type}.

Lemma range_loop_map {A B : Type} (g : A -> B)
  (body : Z -> B -> St -> bool * St) (l : list A) :
  forall idx s,
    range_loop body idx (map g l) s
    = range_loop (fun i x => body i (g x)) idx l s.
Proof.
  induction l as [|x l IH]; intros idx s; cbn; [reflexivity|].
  destruct (body idx (g x) s) as [[|] s']; [apply IH | reflexivity].
Qed.

Lemma is_nil_map {A B : Type} (g : A -> B) (l : list A) :
  is_nil (map g l) = is_nil l.
Proof. destruct l; reflexivity. Qed.

(** [IterateOrder] is the loop over the chosen order, or [onEmpty] when
    there is nothing to visit. *)
Lemma IterateOrder_result (v : Value) (fn : @visitor St) (empty : St -> St)
  (reverse sorted : bool) (s : St) :
  result (IterateOrder v fn empty reverse sorted s) =
  if is_nil (visit_order v reverse sorted) then empty s
  else
    snd (range_loop
           (fun i x => fn i (visit_count v reverse sorted) (fst x) (snd x))
           0 (visit_order v reverse sorted) s).
Proof.
  unfold IterateOrder, visit_order, visit_count.
  destruct (reflect.Value_Kind (getResolvedValue v)) eqn:K;
    try (rewrite result_bind; reflexivity);
    rewrite ?result_bind, is_nil_map, range_loop_map.
  - (* array *)
    destruct (result (ordered_items (getResolvedValue v) reverse sorted))
      as [|item items]; [reflexivity|].
    cbn [List.length is_nil]. rewrite (proj2 (Z.ltb_lt 0 _)) by lia.
    destruct (range_loop _ 0 (item :: items) s). reflexivity.
  - (* map *)
    destruct (result (ordered_keys (getResolvedValue v) reverse sorted))
      as [|key keys]; [reflexivity|].
    destruct (range_loop _ 0 (key :: keys) s) as [[|] s'];
      cbn [List.length is_nil]; [|reflexivity].
    rewrite (proj2 (Z.eqb_neq _ 0)) by lia. reflexivity.
  - (* slice *)
    destruct (result (ordered_items (getResolvedValue v) reverse sorted))
      as [|item items]; [reflexivity|].
    cbn [List.length is_nil]. rewrite (proj2 (Z.ltb_lt 0 _)) by lia.
    destruct (range_loop _ 0 (item :: items) s). reflexivity.
  - (* string *)
    assert (L : List.length
                  (ordered_runes (reflect.Value_String (getResolvedValue v))
                     reverse sorted)
                = List.length
                    (utf8.runes (reflect.Value_String (getResolvedValue v)))).
    { unfold ordered_runes. destruct sorted, reverse;
        rewrite ?reverse_in_place_rev, ?length_rev; try reflexivity;
        apply Permutation_length, sort_SliceStable_perm. }
    rewrite <- L.
    destruct (ordered_runes (reflect.Value_String (getResolvedValue v))
                reverse sorted) as [|c cs] eqn:E; [reflexivity|].
    cbn [List.length is_nil].
    rewrite (proj2 (Z.ltb_lt 0 _)) by lia.
    destruct (range_loop _ 0 (c :: cs) s). reflexivity.
Qed.

End LoopFacts.

Section IterationFacts.

Context {St : Type}.

(** The recording callbacks leave the caller's state as the plain ones do,
    and record the calls of the loop. *)
Lemma range_loop_traced (fn : @visitor St) (count : Z)
  (xs : list (Value * option Value)) :
  forall idx s log,
    range_loop (fun i x => traced_visit fn i count (fst x) (snd x))
      idx xs (s, log)
    = (fst (range_loop (fun i x => fn i count (fst x) (snd x)) idx xs s),
       (snd (range_loop (fun i x => fn i count (fst x) (snd x)) idx xs s),
        log ++ calls fn count xs idx s)).
Proof.
  induction xs as [|[key value] xs IH]; intros idx s log.
  - cbn. rewrite app_nil_r. reflexivity.
  - cbn [range_loop calls fst snd]. unfold traced_visit at 1. cbn [fst snd].
    destruct (fn idx count key value s) as [[|] s'].
    + rewrite IH. rewrite <- app_assoc. reflexivity.
    + reflexivity.
Qed.


(** The order of the visits rearranges the elements as they lie in the
    container. *)
Lemma visit_order_Permutation (v : Value) (reverse sorted : bool) :
  Permutation (visit_order v reverse sorted) (visit_order v false false).
Proof.
  unfold visit_order, ordered_keys, ordered_items, ordered_runes.
  destruct (reflect.Value_Kind (getResolvedValue v));
    try apply Permutation_refl; apply Permutation_map;
    destruct sorted, reverse; cbn [result ret fst];
    try apply Permutation_refl; try apply sort_Sort_perm;
    try (rewrite reverse_in_place_rev; apply Permutation_sym,
           Permutation_rev);
    try apply sort_SliceStable_perm.
  rewrite reverse_in_place_rev.
  eapply Permutation_trans;
    [apply Permutation_sym, Permutation_rev | apply sort_SliceStable_perm].
Qed.

Lemma visit_order_length (v : Value) (reverse sorted : bool) :
  List.length (visit_order v reverse sorted)
  = List.length (visit_order v false false).
Proof. apply Permutation_length, visit_order_Permutation. Qed.

(** [count] is the number of elements, when there is one. *)
Lemma visit_count_length (v : Value) (reverse sorted : bool) :
  visit_order v reverse sorted <> [] ->
  visit_count v reverse sorted
  = Z.of_nat (List.length (visit_order v reverse sorted)).
Proof.
  intros N.
  assert (N0 : visit_order v false false <> []).
  { intros E. apply N. apply length_zero_iff_nil.
    rewrite visit_order_length, E. reflexivity. }
  rewrite visit_order_length. clear N. revert N0.
  unfold visit_order, visit_count, ordered_keys, ordered_items, ordered_runes.
  destruct (reflect.Value_Kind (getResolvedValue v)); cbn [result ret fst];
    intros N0; try contradiction; rewrite ?length_map.
  - apply indexed_length. intros E. apply N0. rewrite E. reflexivity.
  - f_equal. destruct sorted, reverse; cbn [result ret fst];
      try reflexivity; apply Permutation_length, sort_Sort_perm.
  - apply indexed_length. intros E. apply N0. rewrite E. reflexivity.
  - reflexivity.
Qed.

(** The calls of [IterateOrder]. *)
Lemma trace_calls (v : Value) (fn : @visitor St) (empty : St -> St)
  (reverse sorted : bool) (s : St) :
  trace v fn empty reverse sorted s =
  if is_nil (visit_order v reverse sorted) then [Emptied]
  else calls fn (visit_count v reverse sorted)
         (visit_order v reverse sorted) 0 s.
Proof.
  unfold trace. rewrite IterateOrder_result.
  destruct (visit_order v reverse sorted) as [|x xs]; [reflexivity|].
  cbn [is_nil]. rewrite range_loop_traced. reflexivity.
Qed.

Lemma no_element_no_visit (v : Value) (reverse sorted : bool) :
  has_no_element (getResolvedValue v) = true ->
  visit_order v reverse sorted = [].
Proof.
  intros H. apply length_zero_iff_nil. rewrite visit_order_length.
  revert H. unfold has_no_element, visit_order, ordered_keys, ordered_items,
    ordered_runes.
  destruct (reflect.Value_Kind (getResolvedValue v)); try reflexivity;
    cbn [result ret fst]; rewrite length_map; intros H.
  - unfold indexed. apply Z.eqb_eq in H. rewrite H. reflexivity.
  - apply Z.eqb_eq in H.
    destruct (getResolvedValue v); try reflexivity.
    cbn in H |- *. rewrite length_map. lia.
  - unfold indexed. apply Z.eqb_eq in H. rewrite H. reflexivity.
  - apply String.eqb_eq in H. rewrite H. reflexivity.
Qed.

(** Recording the calls does not change what [IterateOrder] makes of the
    caller's state. *)
Lemma traced_state (v : Value) (fn : @visitor St) (empty : St -> St)
  (reverse sorted : bool) (s : St) :
  fst (result (IterateOrder v (traced_visit fn) (traced_empty empty)
                 reverse sorted (s, [])))
  = result (IterateOrder v fn empty reverse sorted s).
Proof.
  rewrite !IterateOrder_result.
  destruct (visit_order v reverse sorted) as [|x xs]; [reflexivity|].
  cbn [is_nil]. rewrite range_loop_traced. reflexivity.
Qed.

(** [Iterate] is [IterateOrder], neither reversed nor sorted. *)
Lemma Iterate_unordered (v : Value) (fn : @visitor St) (empty : St -> St)
  (s : St) :
  Iterate v fn empty s = IterateOrder v fn empty false false s.
Proof. reflexivity. Qed.

(** C5.  When the resolved value is an empty map, array, slice or string,
    or is of a kind that is not iterated, [IterateOrder] (and [Iterate],
    its unordered form) calls [onEmpty] exactly once and [visit] never: the
    recorded calls are the one [onEmpty], and the state is what [onEmpty]
    makes of the initial one. *)
Theorem nothing_to_visit_calls_onEmpty_once (v : Value) (fn : @visitor St)
  (empty : St -> St) (reverse sorted : bool) (s : St) :
  has_no_element (getResolvedValue v) = true ->
  trace v fn empty reverse sorted s = [Emptied] /\
  result (IterateOrder v fn empty reverse sorted s) = empty s /\
  snd (result (Iterate v (traced_visit fn) (traced_empty empty) (s, [])))
  = [Emptied] /\
  result (Iterate v fn empty s) = empty s.
Proof.
  intros H.
  pose proof (no_element_no_visit v reverse sorted H) as E.
  pose proof (no_element_no_visit v false false H) as E0.
  repeat split.
  - rewrite trace_calls, E. reflexivity.
  - rewrite IterateOrder_result, E. reflexivity.
  - unfold Iterate. fold (trace v fn empty false false s).
    rewrite trace_calls, E0. reflexivity.
  - unfold Iterate. rewrite IterateOrder_result, E0. reflexivity.
Qed.


(** Every call recorded by the loop is on an element of the list. *)
Lemma calls_on_elements (fn : @visitor St) (count : Z)
  (xs : list (Value * option Value)) :
  forall idx s i c key value b,
    In (Visited i c key value b) (calls fn count xs idx s) ->
    In (key, value) xs.
Proof.
  induction xs as [|[k w] xs IH]; intros idx s i c key value b; [cbn; tauto|].
  cbn [calls]. destruct (fn idx count k w s) as [[|] s'].
  - intros [H|H]; [inversion H; left; reflexivity|].
    right. exact (IH _ _ _ _ _ _ _ H).
  - intros [H|[]]. inversion H. left. reflexivity.
Qed.

(** The Values that [IterateOrder] builds for the callback are not marked
    safe. *)
Lemma visit_order_not_safe (v : Value) (reverse sorted : bool)
  (key : Value) (value : option Value) :
  In (key, value) (visit_order v reverse sorted) ->
  safe key = false /\ forall w, value = Some w -> safe w = false.
Proof.
  intros I.
  apply (Permutation_in _ (visit_order_Permutation v reverse sorted)) in I.
  revert I. unfold visit_order, ordered_keys, ordered_items, ordered_runes.
  destruct (reflect.Value_Kind (getResolvedValue v));
    cbn [result ret fst In]; try tauto; rewrite ?map_map;
    intros I; apply in_map_iff in I; destruct I as (x & E & _);
    inversion E; subst; split; try reflexivity;
    intros w Hw; inversion Hw; reflexivity.
Qed.

(** C10.  The safe marker is not handed on: the result of [Negate], of
    [Slice] and of [Index], and the key and value that [IterateOrder]
    passes to [visit], are not marked safe, whatever the marker of the
    receiver. *)
Theorem derived_values_not_safe (v : Value) :
  safe (result (Negate v)) = false /\
  (forall i j w, Slice v i j = Some w -> safe (result w) = false) /\
  (forall i w, Index v i = Some w -> safe (result w) = false) /\
  (forall (fn : @visitor St) empty reverse sorted s idx count key value b,
     In (Visited idx count key value b) (trace v fn empty reverse sorted s) ->
     safe key = false /\ forall w, value = Some w -> safe w = false).
Proof.
  split; [|split; [|split]].
  - unfold Negate, Integer, Float.
    destruct (reflect.Value_Kind (getResolvedValue v)); cbn;
      try reflexivity;
      match goal with
      | |- context [if ?c then _ else _] => destruct c; reflexivity
      end.
  - intros i j w. unfold Slice.
    destruct (reflect.Value_Kind (getResolvedValue v));
      try (intros H; inversion H; reflexivity).
    + destruct (reflect.Value_Slice _ _ i j);
        intros H; inversion H; reflexivity.
    + destruct (reflect.Value_Slice _ _ i j);
        intros H; inversion H; reflexivity.
    + destruct (slice_runes _ i j); intros H; inversion H; reflexivity.
  - intros i w. unfold Index, Len.
    destruct (reflect.Value_Kind (getResolvedValue v));
      try (intros H; inversion H; reflexivity); cbn [ret].
    + destruct (_ <=? i); [intros H; inversion H; reflexivity|].
      destruct (reflect.Value_Index _ i); intros H; inversion H; reflexivity.
    + destruct (_ <=? i); [intros H; inversion H; reflexivity|].
      destruct (reflect.Value_Index _ i); intros H; inversion H; reflexivity.
    + destruct (i <? _); [|intros H; inversion H; reflexivity].
      destruct (index_runes _ i); intros H; inversion H; reflexivity.
  - intros fn empty reverse sorted s idx count key value b.
    rewrite trace_calls.
    destruct (is_nil (visit_order v reverse sorted)).
    + intros [H|[]]. discriminate H.
    + intros H. apply calls_on_elements in H.
      exact (visit_order_not_safe _ _ _ _ _ H).
Qed.

End IterationFacts.


(* ------------------------------------------------------------------ *)
(** ** The comparator of the sorts *)



















(* ------------------------------------------------------------------ *)
(** ** Containment in a map *)

Lemma rtype_opt_eqb_eq (a b : option reflect.rtype) :
  rtype_opt_eqb a b = true <-> a = b.
Proof.
  destruct a as [t|], b as [u|]; cbn; try (split; congruence).
  rewrite rtype_eqb_eq. split; congruence.
Qed.

(** A key equal under [==] to an [int] or a [string] is that datum. *)
Lemma go_eqb_int (k : reflect.rvalue) (n : Z) :
  reflect.go_eqb k (go_int n) = true <-> k = go_int n.
Proof.
  unfold go_int. split.
  - destruct k; cbn; try discriminate.
    intros H. apply andb_true_iff in H. destruct H as [T E].
    apply rtype_eqb_eq in T. apply Z.eqb_eq in E. subst. reflexivity.
  - intros ->. cbn. rewrite ?rtype_eqb_refl, Z.eqb_refl. reflexivity.
Qed.

Lemma go_eqb_string (k : reflect.rvalue) (s : string) :
  reflect.go_eqb k (go_string s) = true <-> k = go_string s.
Proof.
  unfold go_string. split.
  - destruct k; cbn; try discriminate.
    intros H. apply andb_true_iff in H. destruct H as [T E].
    apply rtype_eqb_eq in T. apply String.eqb_eq in E. subst. reflexivity.
  - intros ->. cbn. rewrite ?rtype_eqb_refl, String.eqb_refl. reflexivity.
Qed.

(** [MapIndex] finds a value exactly under the keys of the map. *)
Lemma MapIndex_valid (t : reflect.rtype)
  (entries : list (reflect.rvalue * reflect.rvalue)) (key : reflect.rvalue) :
  forallb (fun e => reflect.Value_IsValid (snd e)) entries = true ->
  reflect.Value_IsValid (reflect.Value_MapIndex (reflect.VMap t entries) key)
  = existsb (fun k => reflect.go_eqb k key) (map fst entries).
Proof.
  cbn [reflect.Value_MapIndex].
  induction entries as [|[k w] entries IH]; cbn; [reflexivity|].
  intros H. apply andb_true_iff in H. destruct H as [Hw H].
  destruct (reflect.go_eqb k key); cbn; [exact Hw | exact (IH H)].
Qed.

Lemma existsb_In_eq {A : Type} (p : A -> bool) (x : A) (l : list A) :
  (forall k, p k = true <-> k = x) ->
  existsb p l = true <-> In x l.
Proof.
  intros P. rewrite existsb_exists. split.
  - intros (k & I & E). apply P in E. subst. exact I.
  - intros I. exists x. split; [exact I | apply P; reflexivity].
Qed.

(** C8, as the code has it.  [Contains] on a map whose stored values are
    valid.  It is false, silently, when [other] is nil or when the type of
    its raw datum is not the key type of the map, so in particular when its
    kind is not the kind of the keys.  When the types agree:
    if the dynamic type of [other] is exactly [int] or exactly [string] the
    answer is whether the key is in the map; for every other type it is
    false, with one diagnostic. *)
Theorem Contains_on_map (v other : Value) (t : reflect.rtype)
  (entries : list (reflect.rvalue * reflect.rvalue)) :
  getResolvedValue v = reflect.VMap t entries ->
  reflect.Type_Kind t = reflect.Map ->
  forallb (fun e => reflect.Value_IsValid (snd e)) entries = true ->
  let keys := map fst entries in
  let int := reflect.Predeclared reflect.Int in
  let str := reflect.Predeclared reflect.String in
  (val other = reflect.VInvalid -> Contains v other = ret false) /\
  (reflect.Value_Type (val other) <> reflect.Type_Key t ->
   Contains v other = ret false) /\
  (option_map reflect.Type_Kind (reflect.Type_Key t)
   <> Some (reflect.Value_Kind (val other)) ->
   Contains v other = ret false) /\
  (reflect.Value_IsValid (val other) = true ->
   reflect.Value_Type (val other) = reflect.Type_Key t ->
   type_assert int (Interface other) || type_assert str (Interface other)
   = true ->
   Contains v other =
   ret (existsb (fun k => reflect.go_eqb k (getResolvedValue other)) keys)) /\
  (reflect.Value_IsValid (val other) = true ->
   reflect.Value_Type (val other) = reflect.Type_Key t ->
   type_assert int (Interface other) || type_assert str (Interface other)
   = false ->
   result (Contains v other) = false /\
   List.length (diagnostics (Contains v other)) = 1%nat) /\
  (forall n, val other = go_int n -> reflect.Type_Key t = Some int ->
   diagnostics (Contains v other) = [] /\
   (result (Contains v other) = true <-> In (go_int n) keys)) /\
  (forall s, val other = go_string s -> reflect.Type_Key t = Some str ->
   diagnostics (Contains v other) = [] /\
   (result (Contains v other) = true <-> In (go_string s) keys)).
Proof.
  intros Hr Hk Hv keys int str.
  assert (C : Contains v other =
    if negb (reflect.Value_IsValid (val other)) then ret false
    else if negb (rtype_opt_eqb (reflect.Type_Key t)
                    (reflect.Value_Type (val other)))
    then ret false
    else if type_assert int (Interface other) ||
            type_assert str (Interface other)
    then ret (existsb (fun k => reflect.go_eqb k (getResolvedValue other))
                keys)
    else
      logf ("Value.Contains() does not support lookup type '%s'" ++ newline)
        (reflect.Kind_String
           (reflect.Value_Kind (getResolvedValue other))) ;;;
      ret false).
  { unfold Contains. rewrite Hr.
    unfold reflect.Value_Kind at 1. cbn [reflect.Value_Type]. rewrite Hk.
    rewrite (MapIndex_valid t entries _ Hv). fold keys. fold int. fold str.
    destruct (type_assert int (Interface other)); reflexivity. }
  assert (M : reflect.Value_Type (val other) <> reflect.Type_Key t ->
              Contains v other = ret false).
  { intros N. rewrite C.
    destruct (reflect.Value_IsValid (val other)); [|reflexivity].
    cbn [negb].
    destruct (rtype_opt_eqb _ _) eqn:E; [|reflexivity].
    apply rtype_opt_eqb_eq in E. congruence. }
  split; [|split; [|split; [|split; [|split; [|split]]]]].
  - intros E. rewrite C, E. reflexivity.
  - exact M.
  - intros N. rewrite C.
    destruct (reflect.Value_IsValid (val other)) eqn:V; [|reflexivity].
    cbn [negb].
    destruct (rtype_opt_eqb _ _) eqn:E; [|reflexivity].
    apply rtype_opt_eqb_eq in E. exfalso. apply N. rewrite E.
    unfold reflect.Value_Kind.
    destruct (val other); try discriminate V; reflexivity.
  - intros V E A. rewrite C, V, <- E.
    rewrite (proj2 (rtype_opt_eqb_eq _ _) eq_refl), A. reflexivity.
  - intros V E A. rewrite C, V, <- E.
    rewrite (proj2 (rtype_opt_eqb_eq _ _) eq_refl), A.
    split; reflexivity.
  - intros n E K. rewrite C.
    unfold Interface, getResolvedValue. rewrite E, K. cbn.
    split; [reflexivity|].
    apply existsb_In_eq. intros k. apply go_eqb_int.
  - intros x E K. rewrite C.
    unfold Interface, getResolvedValue. rewrite E, K. cbn.
    split; [reflexivity|].
    apply existsb_In_eq. intros k. apply go_eqb_string.
Qed.


(* ------------------------------------------------------------------ *)
(** ** Further properties of the methods *)

(** X1.  The kind predicates exclude one another: a Value is at most one of
    string, boolean, integer, float and nil, and it is a number exactly
    when it is an integer or a float, never both; a (well-formed) time is
    none of them. *)
Theorem kind_predicates_exclusive (v : Value) :
  IsNumber v = xorb (IsInteger v) (IsFloat v) /\
  (IsString v = true -> IsBool v = false /\ IsNumber v = false /\
                        IsNil v = false) /\
  (IsBool v = true -> IsNumber v = false /\ IsNil v = false) /\
  (IsNumber v = true -> IsNil v = false) /\
  (reflect.well_formed (val v) = true -> IsTime v = true ->
   IsString v = false /\ IsBool v = false /\ IsNumber v = false /\
   IsNil v = false).
Proof.
  split; [|split; [|split; [|split]]].
  - unfold IsNumber, IsInteger, IsFloat.
    destruct (reflect.Value_Kind (getResolvedValue v)); reflexivity.
  - unfold IsString, IsBool, IsNumber, IsInteger, IsFloat, IsNil,
      reflect.Value_Kind.
    destruct (getResolvedValue v); cbn; try discriminate;
      destruct (reflect.Type_Kind t); cbn; intros H; try discriminate H;
      repeat split.
  - unfold IsString, IsBool, IsNumber, IsInteger, IsFloat, IsNil,
      reflect.Value_Kind.
    destruct (getResolvedValue v); cbn; try discriminate;
      destruct (reflect.Type_Kind t); cbn; intros H; try discriminate H;
      repeat split.
  - unfold IsNumber, IsInteger, IsFloat, IsNil, reflect.Value_Kind.
    destruct (getResolvedValue v); cbn; try discriminate; reflexivity.
  - intros Wf H.
    assert (K : reflect.Value_Kind (val v) = reflect.Struct \/
                reflect.Value_Kind (val v) = reflect.Interface).
    { revert Wf H. unfold IsTime, type_assert, Interface.
      destruct (val v) eqn:V; cbn; try discriminate;
        try (intros Wf H; apply rtype_eqb_eq in H; subst t;
             left; reflexivity).
      intros Wf _. right. apply Kind_eqb_eq in Wf. exact Wf. }
    assert (R : getResolvedValue v = val v).
    { apply getResolvedValue_direct. destruct K as [K|K]; rewrite K;
        discriminate. }
    unfold IsString, IsBool, IsNumber, IsInteger, IsFloat, IsNil.
    rewrite R.
    assert (V : reflect.Value_IsValid (val v) = true).
    { destruct (val v); try reflexivity. destruct K; discriminate. }
    rewrite V. destruct K as [K|K]; rewrite K; repeat split.
Qed.


Lemma Negate_result_well_formed (v : Value) :
  reflect.well_formed (getResolvedValue (result (Negate v))) = true.
Proof.
  unfold Negate, Integer, Float.
  destruct (reflect.Value_Kind (getResolvedValue v)); cbn;
    try reflexivity;
    match goal with
    | |- context [if ?c then _ else _] => destruct c; reflexivity
    end.
Qed.

Lemma Value_Len_nonneg (r : reflect.rvalue) : 0 <= reflect.Value_Len r.
Proof. destruct r; cbn; lia. Qed.

(** X2.  [Negate] is the complement under [IsTrue]: the negation of a
    Value is true exactly when the Value is not, for every kind, the
    unsupported ones included (they are false, their negation true); so
    negating twice keeps the truth of a Value. *)
Theorem Negate_complements_IsTrue (v : Value) :
  reflect.well_formed (getResolvedValue v) = true ->
  result (IsTrue (result (Negate v))) = negb (result (IsTrue v)) /\
  result (IsTrue (result (Negate (result (Negate v))))) = result (IsTrue v).
Proof.
  assert (G : forall u : Value,
             reflect.well_formed (getResolvedValue u) = true ->
             result (IsTrue (result (Negate u))) = negb (result (IsTrue u))).
  { intros u Wf.
    pose proof (signed_payload _ Wf) as Hs.
    pose proof (unsigned_payload _ Wf) as Hu.
    pose proof (Value_Len_nonneg (getResolvedValue u)) as Hl.
    unfold Negate, IsTrue at 2, Integer, Float.
    destruct (reflect.Value_Kind (getResolvedValue u)); cbn in *;
      try reflexivity;
      try (rewrite int_of_Z_zero by (specialize (Hs eq_refl); lia);
           destruct (reflect.Value_Int (getResolvedValue u) =? 0);
           reflexivity);
      try (rewrite int_of_Z_zero by (specialize (Hu eq_refl); lia);
           destruct (reflect.Value_Uint (getResolvedValue u) =? 0);
           reflexivity);
      try (destruct (PrimFloat.eqb (reflect.Value_Float (getResolvedValue u))
                       0); reflexivity);
      try (destruct (Z.eqb_spec (reflect.Value_Len (getResolvedValue u)) 0)
             as [E|E];
           [rewrite E; reflexivity
           |rewrite (proj2 (Z.ltb_lt 0 _)) by lia; reflexivity]);
      try (destruct (reflect.Value_Bool (getResolvedValue u)); reflexivity). }
  intros Wf. split; [exact (G v Wf)|].
  rewrite (G _ (Negate_result_well_formed v)), (G v Wf).
  apply negb_involutive.
Qed.

(** X3.  [Integer] of an integer: a signed value is returned as it is; an
    unsigned value is returned as it is below [2^63] and wraps to the
    negative [n - 2^64] from there on (the conversion to [int]).  No
    diagnostic is emitted. *)
Theorem Integer_of_integer (v : Value) :
  reflect.well_formed (getResolvedValue v) = true ->
  let r := getResolvedValue v in
  (is_signed (reflect.Value_Kind r) = true ->
   Integer v = ret (reflect.Value_Int r)) /\
  (is_unsigned (reflect.Value_Kind r) = true ->
   Integer v =
   ret (if reflect.Value_Uint r <? 2 ^ 63 then reflect.Value_Uint r
        else reflect.Value_Uint r - 2 ^ 64)).
Proof.
  intros Wf r.
  pose proof (signed_payload _ Wf) as Hs.
  pose proof (unsigned_payload _ Wf) as Hu.
  fold r in Hs, Hu. unfold Integer. fold r.
  split; intros K.
  - specialize (Hs K).
    assert (E : conv.int_of_Z (reflect.Value_Int r) = reflect.Value_Int r).
    { unfold conv.int_of_Z. rewrite Z.mod_small by lia. lia. }
    destruct (reflect.Value_Kind r); try discriminate K; rewrite E;
      reflexivity.
  - specialize (Hu K).
    assert (E : conv.int_of_Z (reflect.Value_Uint r) =
                if reflect.Value_Uint r <? 2 ^ 63 then reflect.Value_Uint r
                else reflect.Value_Uint r - 2 ^ 64).
    { unfold conv.int_of_Z.
      destruct (Z.ltb_spec (reflect.Value_Uint r) (2 ^ 63)) as [L|L].
      - rewrite Z.mod_small by lia. lia.
      - replace (reflect.Value_Uint r + 2 ^ 63)
          with ((reflect.Value_Uint r - 2 ^ 63) + 1 * 2 ^ 64) by lia.
        rewrite Z.mod_add by lia. rewrite Z.mod_small by lia. lia. }
    destruct (reflect.Value_Kind r); try discriminate K; rewrite E;
      reflexivity.
Qed.

(** X4.  [Integer] truncates what [Float] gives: on a float and on a
    string, [Integer()] is the conversion to [int] of [Float()] (a string
    that does not parse gives 0 and 0.0), and neither emits a diagnostic. *)
Theorem Integer_truncates_Float (v : Value) :
  let k := reflect.Value_Kind (getResolvedValue v) in
  is_float k = true \/ k = reflect.String ->
  Integer v = ret (conv.int_of_float (result (Float v))) /\
  diagnostics (Float v) = [].
Proof.
  intros k H. unfold Integer, Float. fold k.
  destruct H as [H|H].
  - destruct k; try discriminate H; split; reflexivity.
  - rewrite H.
    destruct (strconv_ParseFloat
                (reflect.Value_String (getResolvedValue v)));
      split; reflexivity.
Qed.

(** X5.  No method faults on a nil Value (an absent datum or a nil
    reference), and each gives its fallback: the empty string, zero, false,
    length zero, the empty sequence for [Slice] and [Index]; nil contains
    nothing, its negation is true, and iterating it calls [onEmpty] once. *)
Theorem nil_Value_fallbacks (v : Value) :
  IsNil v = true ->
  String v = ret ""%string /\
  result (Integer v) = 0 /\ result (Float v) = 0%float /\
  result (Bool v) = false /\ result (IsTrue v) = false /\
  result (Len v) = 0 /\ CanSlice v = false /\
  result (Negate v) = AsValue (go_bool true) /\
  (forall i j, option_map result (Slice v i j)
               = Some (AsValue go_empty_ints)) /\
  (forall i, option_map result (Index v i) = Some (AsValue go_empty_ints)) /\
  (forall other, result (Contains v other) = false) /\
  (forall (St : Type) (fn : @visitor St) empty reverse sorted s,
     trace v fn empty reverse sorted s = [Emptied]).
Proof.
  unfold IsNil. intros N.
  assert (K : reflect.Value_Kind (getResolvedValue v) = reflect.Invalid)
    by (destruct (getResolvedValue v); try discriminate N; reflexivity).
  unfold String, Integer, Float, Bool, IsTrue, Len, CanSlice, Negate, Slice,
    Index, Contains, IsNil.
  rewrite K. destruct (reflect.Value_IsValid (getResolvedValue v));
    [discriminate N|]. cbn.
  repeat split; try reflexivity.
  intros St fn empty reverse sorted s.
  unfold trace, IterateOrder. rewrite K. reflexivity.
Qed.


(* ------------------------------------------------------------------ *)
(** ** Length, slices and indices *)

Lemma length_bytes (s : string) :
  List.length (utf8.bytes s) = String.length s.
Proof.
  unfold utf8.bytes. rewrite length_map.
  induction s as [|a s IH]; cbn; [reflexivity | rewrite IH; reflexivity].
Qed.

(** A string has at least one code point unless it is empty, and at most
    one per byte. *)
Lemma decode_length (n : nat) : forall bs,
  (List.length bs <= n)%nat ->
  (List.length (utf8.decode bs) <= List.length bs)%nat /\
  (bs <> [] -> utf8.decode bs <> []).
Proof.
  induction n as [|n IH]; intros bs L.
  - destruct bs; [split; [apply le_n | intros N; contradiction]
                 | cbn in L; lia].
  - destruct bs as [|b0 r1];
      [split; [apply le_n | intros N; contradiction]|].
    cbn [List.length] in L.
    assert (I : forall l, (List.length l <= List.length r1)%nat ->
                  (List.length (utf8.decode l) <= List.length l)%nat)
      by (intros l Hl; apply IH; lia).
    pose proof (I r1 (le_n _)) as I1.
    cbn [utf8.decode].
    destruct (utf8.first b0) as [[[k lo] hi]|];
      [destruct k as [|[|[|k]]]|].
    + cbn [List.length]. split; [lia | discriminate].
    + destruct r1 as [|b1 r2]; [cbn; split; [lia | discriminate]|].
      destruct (utf8.within lo hi b1); cbn [List.length] in *;
        (split; [|discriminate]).
      * specialize (I r2 ltac:(cbn; lia)). lia.
      * lia.
    + destruct r1 as [|b1 [|b2 r3]];
        try (cbn [List.length] in *; split; [lia | discriminate]).
      destruct (utf8.within lo hi b1 && utf8.cont b2);
        cbn [List.length] in *; (split; [|discriminate]).
      * specialize (I r3 ltac:(cbn; lia)). lia.
      * lia.
    + destruct r1 as [|b1 [|b2 [|b3 r4]]];
        try (cbn [List.length] in *; split; [lia | discriminate]).
      destruct (utf8.within lo hi b1 && utf8.cont b2 && utf8.cont b3);
        cbn [List.length] in *; (split; [|discriminate]).
      * specialize (I r4 ltac:(cbn; lia)). lia.
      * lia.
    + cbn [List.length]. split; [lia | discriminate].
Qed.


Lemma runes_valid (s : string) :
  Forall (fun r => utf8.valid_rune r = true) (utf8.runes s).
Proof. apply (decode_valid_runes _ _ (le_n _)), bytes_are_bytes. Qed.

(** Code points that were decoded survive a conversion to a string and
    back. *)
Lemma runes_string_of_runes (rs : list Z) :
  Forall (fun r => utf8.valid_rune r = true) rs ->
  utf8.runes (utf8.string_of_runes rs) = rs.
Proof.
  intros V. unfold utf8.runes, utf8.string_of_runes.
  assert (B : Forall is_byte (flat_map utf8.encode rs)).
  { induction V as [|r rs Hr _ IH]; [constructor|].
    cbn [flat_map]. apply Forall_app. split; [|exact IH].
    unfold utf8.encode. rewrite Hr. apply encode_valid_bytes. exact Hr. }
  rewrite (bytes_of_bytes _ B). clear B.
  induction V as [|r rs Hr _ IH]; [reflexivity|].
  cbn [flat_map]. unfold utf8.encode at 1. rewrite Hr.
  rewrite decode_encode_valid by exact Hr. rewrite IH. reflexivity.
Qed.

Lemma Forall_sub {A : Type} (P : A -> Prop) (l : list A) (a b : nat) :
  Forall P l -> Forall P (firstn a (skipn b l)).
Proof.
  intros H.
  assert (S : Forall P (skipn b l)).
  { clear a. revert l H. induction b as [|b IH]; intros l H; [exact H|].
    destruct H as [|x l Hx Hl]; [constructor | exact (IH l Hl)]. }
  revert S. generalize (skipn b l). clear.
  induction a as [|a IH]; intros l H; [constructor|].
  destruct H as [|x l Hx Hl]; constructor; [exact Hx | exact (IH l Hl)].
Qed.

Lemma sub_length {A : Type} (l : list A) (i j : Z) :
  0 <= i <= j -> j <= Z.of_nat (List.length l) ->
  Z.of_nat (List.length (firstn (Z.to_nat (j - i)) (skipn (Z.to_nat i) l)))
  = j - i.
Proof. intros H1 H2. rewrite length_firstn, length_skipn. lia. Qed.

Lemma sub_nth {A : Type} (l : list A) (i j k : Z) (d : A) :
  0 <= i <= j -> j <= Z.of_nat (List.length l) -> 0 <= k < j - i ->
  nth (Z.to_nat k) (firstn (Z.to_nat (j - i)) (skipn (Z.to_nat i) l)) d
  = nth (Z.to_nat (i + k)) l d.
Proof.
  intros H1 H2 H3. rewrite nth_firstn.
  rewrite (proj2 (Nat.ltb_lt _ _)) by lia.
  rewrite nth_skipn. f_equal. lia.
Qed.


(** A well-formed Value of string kind is a string. *)
Lemma well_formed_string (r : reflect.rvalue) :
  reflect.well_formed r = true ->
  reflect.Value_Kind r = reflect.String ->
  exists t s, r = reflect.VString t s.
Proof.
  unfold reflect.Value_Kind.
  destruct r as [| | | | |t s| | | | | | |]; cbn; try discriminate;
    try (intros Wf K; rewrite K in Wf; discriminate Wf).
  intros _ _. exists t, s. reflexivity.
Qed.

(** X7.  For what has a length (array, channel, map, slice, string), a
    Value is true exactly when its [Len()] is positive, although [IsTrue]
    measures a string in bytes and [Len] in code points. *)
Theorem IsTrue_iff_Len_positive (v : Value) :
  reflect.well_formed (getResolvedValue v) = true ->
  is_container (reflect.Value_Kind (getResolvedValue v)) = true ->
  result (IsTrue v) = (0 <? result (Len v)) /\ diagnostics (Len v) = [].
Proof.
  intros Wf K. unfold IsTrue, Len.
  destruct (reflect.Value_Kind (getResolvedValue v)) eqn:E;
    try discriminate K; cbn [result diagnostics ret fst snd];
    split; try reflexivity.
  (* string *)
  destruct (well_formed_string _ Wf E) as (t & s & R). rewrite R.
  cbn [reflect.Value_Len reflect.Value_String].
  destruct (decode_length _ (utf8.bytes s) (le_n _)) as [L N].
  rewrite length_bytes in L. fold (utf8.runes s) in L, N.
  destruct s as [|a s]; [reflexivity|].
  assert (utf8.runes (String.String a s) <> []) by (apply N; discriminate).
  destruct (utf8.runes (String.String a s)); [contradiction|]. reflexivity.
Qed.

Lemma Slice_Type_kind (t : reflect.rtype) :
  reflect.Type_Kind t = reflect.Array \/ reflect.Type_Kind t = reflect.Slice ->
  reflect.Type_Kind (reflect.Slice_Type t) = reflect.Array \/
  reflect.Type_Kind (reflect.Slice_Type t) = reflect.Slice.
Proof.
  induction t; cbn; intros H; try exact H; try (right; reflexivity).
  destruct (reflect.Type_Kind t) eqn:K;
    try (destruct H as [H|H]; discriminate H).
  - apply IHt. left. reflexivity.
  - cbn. rewrite K. right. reflexivity.
Qed.

(** A well-formed Value that can be sliced is a sequence or a string. *)
Lemma CanSlice_cases (v : Value) :
  reflect.well_formed (getResolvedValue v) = true ->
  CanSlice v = true ->
  (exists t items spare,
     getResolvedValue v = reflect.VSeq t items spare /\
     (reflect.Type_Kind t = reflect.Array \/
      reflect.Type_Kind t = reflect.Slice)) \/
  (exists t s,
     getResolvedValue v = reflect.VString t s /\
     reflect.Type_Kind t = reflect.String).
Proof.
  unfold CanSlice, reflect.Value_Kind.
  destruct (getResolvedValue v) as [| | | | |t s|t items spare| | | | | |];
    cbn; try discriminate;
    try (destruct (reflect.Type_Kind t); cbn; discriminate).
  - intros Wf _. right. exists t, s. split; [reflexivity|].
    apply Kind_eqb_eq. exact Wf.
  - intros Wf _. left. exists t, items, spare. split; [reflexivity|].
    apply orb_true_iff in Wf. destruct Wf as [Wf|Wf];
      apply Kind_eqb_eq in Wf; auto.
Qed.

(** The three tests of a slice expression refuse what lies outside
    [0 <= i <= j <= cap]. *)
Lemma out_of_bounds (i j cap : Z) :
  (i <? 0) || (j <? i) || (cap <? j) = negb (in_bounds i j cap).
Proof.
  unfold in_bounds.
  destruct (Z.ltb_spec i 0), (Z.ltb_spec j i), (Z.ltb_spec cap j),
    (Z.leb_spec 0 i), (Z.leb_spec i j), (Z.leb_spec j cap);
    try reflexivity; lia.
Qed.

Lemma in_bounds_spec (i j cap : Z) :
  in_bounds i j cap = true <-> 0 <= i <= j /\ j <= cap.
Proof.
  unfold in_bounds. rewrite !andb_true_iff, !Z.leb_le. tauto.
Qed.

(** The backing array is as long as the capacity. *)
Lemma backing_of_sequence_length t items spare :
  reflect.Type_Kind t = reflect.Array \/ reflect.Type_Kind t = reflect.Slice ->
  Z.of_nat (List.length (backing_of_sequence t items spare))
  = reflect.Value_Cap (reflect.VSeq t items spare).
Proof.
  unfold backing_of_sequence, reflect.Value_Cap.
  intros [K|K]; rewrite K; rewrite ?length_app; reflexivity.
Qed.

Lemma backing_of_runes_length (runes : list Z) :
  List.length (backing_of_runes runes) = cap_of_runes (List.length runes).
Proof.
  unfold backing_of_runes. rewrite length_app, repeat_length.
  pose proof (cap_of_runes_ge (List.length runes)). lia.
Qed.

Lemma backing_of_runes_valid (s : string) :
  Forall (fun r => utf8.valid_rune r = true) (backing_of_runes (utf8.runes s)).
Proof.
  unfold backing_of_runes. apply Forall_app. split; [apply runes_valid|].
  induction (cap_of_runes _ - _)%nat as [|n IH]; constructor;
    [reflexivity | exact IH].
Qed.

Lemma Slice_of_sequence (v : Value) t items spare (i j : Z) :
  getResolvedValue v = reflect.VSeq t items spare ->
  reflect.Type_Kind t = reflect.Array \/ reflect.Type_Kind t = reflect.Slice ->
  Slice v i j =
  if (reflect.Type_Kind t == reflect.Array) && negb (resolvedCanAddr v)
  then None
  else if in_bounds i j (reflect.Value_Cap (reflect.VSeq t items spare))
  then Some (ret {| val := reflect.VSeq (reflect.Slice_Type t)
                             (firstn (Z.to_nat (j - i))
                                (skipn (Z.to_nat i)
                                   (backing_of_sequence t items spare)))
                             (skipn (Z.to_nat j)
                                (backing_of_sequence t items spare));
                    safe := false |})
  else None.
Proof.
  intros R K. unfold Slice. rewrite R.
  unfold reflect.Value_Kind. cbn [reflect.Value_Type].
  unfold reflect.Value_Slice. rewrite out_of_bounds.
  fold (backing_of_sequence t items spare).
  destruct K as [K|K]; rewrite K; cbn [reflect.Kind_eqb andb];
    rewrite ?Kind_eqb_refl; cbn [andb];
    [destruct (negb (resolvedCanAddr v)); [reflexivity|]|];
    rewrite ?(Kind_eqb_neq reflect.Slice reflect.Array) by discriminate;
    cbn [andb];
    destruct (in_bounds i j _); reflexivity.
Qed.

Lemma Slice_of_text (v : Value) t s (i j : Z) :
  getResolvedValue v = reflect.VString t s ->
  reflect.Type_Kind t = reflect.String ->
  Slice v i j =
  if in_bounds i j (Z.of_nat (cap_of_runes (List.length (utf8.runes s))))
  then Some (ret (AsValue
                    (go_string
                       (utf8.string_of_runes
                          (firstn (Z.to_nat (j - i))
                             (skipn (Z.to_nat i)
                                (backing_of_runes (utf8.runes s))))))))
  else None.
Proof.
  intros R K. unfold Slice, slice_runes. rewrite R.
  unfold reflect.Value_Kind. cbn [reflect.Value_Type reflect.Value_String].
  rewrite K. cbv zeta. rewrite out_of_bounds.
  fold (backing_of_runes (utf8.runes s)).
  destruct (in_bounds i j _); reflexivity.
Qed.

Lemma Index_of_sequence (v : Value) t items spare (k : Z) :
  getResolvedValue v = reflect.VSeq t items spare ->
  reflect.Type_Kind t = reflect.Array \/ reflect.Type_Kind t = reflect.Slice ->
  Index v k =
  if Z.of_nat (List.length items) <=? k then Some (ret (AsValue go_nil))
  else if k <? 0 then None
  else Some (ret (AsValue (reflect.Value_Interface
                             (nth (Z.to_nat k) items reflect.VInvalid)))).
Proof.
  intros R K. unfold Index, Len. rewrite R. unfold reflect.Value_Kind.
  cbn [reflect.Value_Type].
  destruct K as [K|K]; rewrite K;
    cbn [ret reflect.Value_Len reflect.Value_Index];
    destruct (Z.leb_spec (Z.of_nat (List.length items)) k);
    try reflexivity;
    destruct (k <? 0) eqn:N; try reflexivity;
    apply Z.ltb_ge in N;
    rewrite (nth_error_nth' items reflect.VInvalid) by lia; reflexivity.
Qed.

Lemma Index_of_text (v : Value) t s (k : Z) :
  getResolvedValue v = reflect.VString t s ->
  reflect.Type_Kind t = reflect.String ->
  Index v k =
  if k <? Z.of_nat (List.length (utf8.runes s))
  then if k <? 0 then None
       else Some (ret (AsValue
                         (go_string
                            (utf8.string_of_rune
                               (nth (Z.to_nat k) (utf8.runes s) 0)))))
  else Some (ret (AsValue (go_string ""))).
Proof.
  intros R K. unfold Index, index_runes. rewrite R.
  unfold reflect.Value_Kind. cbn [reflect.Value_Type reflect.Value_String].
  rewrite K.
  destruct (Z.ltb_spec k (Z.of_nat (List.length (utf8.runes s))));
    [|reflexivity].
  destruct (k <? 0) eqn:N; [reflexivity|]. apply Z.ltb_ge in N.
  rewrite (nth_error_nth' (utf8.runes s) 0) by lia. reflexivity.
Qed.

Lemma Len_of_sliceable (v : Value) :
  reflect.well_formed (getResolvedValue v) = true ->
  CanSlice v = true ->
  (forall t items spare, getResolvedValue v = reflect.VSeq t items spare ->
                         result (Len v) = Z.of_nat (List.length items)) /\
  (forall t s, getResolvedValue v = reflect.VString t s ->
               result (Len v) = Z.of_nat (List.length (utf8.runes s))).
Proof.
  intros Wf C.
  destruct (CanSlice_cases v Wf C)
    as [(t & items & spare & R & K)|(t & s & R & K)];
    split; intros; match goal with
                   | H : getResolvedValue v = _ |- _ =>
                       rewrite R in H; inversion H; subst
                   end;
    unfold Len; rewrite R; unfold reflect.Value_Kind;
    cbn [reflect.Value_Type reflect.Value_Len reflect.Value_String].
  - destruct K as [K|K]; rewrite K; reflexivity.
  - rewrite K. reflexivity.
Qed.


(** X8.  A slice is the window it was cut from: for a sequence or a string
    that [Slice(i, j)] accepts, the result can be sliced again, its [Len()]
    is [j - i], and its element (code point) at [k] is the element at
    [i + k] of the original, wherever the original has one.  The window may
    reach past the length, into the capacity: there a string gives the zero
    code point.  No diagnostic is emitted. *)
Theorem Slice_is_a_window (v : Value) (i j : Z) (w : W Value) :
  reflect.well_formed (getResolvedValue v) = true ->
  CanSlice v = true ->
  Slice v i j = Some w ->
  diagnostics w = [] /\
  CanSlice (result w) = true /\
  Len (result w) = ret (j - i) /\
  (forall k, 0 <= k < j - i -> i + k < result (Len v) ->
             Index (result w) k = Index v (i + k)) /\
  (forall k, 0 <= k < j - i -> result (Len v) <= i + k ->
             IsString v = true ->
             Index (result w) k
             = Some (ret (AsValue (go_string (utf8.string_of_rune 0))))).
Proof.
  intros Wf C S.
  destruct (CanSlice_cases v Wf C)
    as [(t & items & spare & R & K)|(t & s & R & K)].
  - rewrite (Slice_of_sequence v t items spare i j R K) in S.
    destruct (_ && negb _); [discriminate S|].
    destruct (in_bounds i j _) eqn:B; [|discriminate S].
    apply in_bounds_spec in B.
    rewrite <- (backing_of_sequence_length t items spare K) in B.
    injection S as <-.
    cbn [diagnostics result ret fst snd].
    set (backing := backing_of_sequence t items spare) in *.
    set (sub := firstn (Z.to_nat (j - i)) (skipn (Z.to_nat i) backing)).
    set (rest := skipn (Z.to_nat j) backing).
    set (u := {| val := reflect.VSeq (reflect.Slice_Type t) sub rest;
                 safe := false |}).
    pose proof (Slice_Type_kind t K) as K'.
    assert (R' : getResolvedValue u
                 = reflect.VSeq (reflect.Slice_Type t) sub rest).
    { apply getResolvedValue_direct. unfold reflect.Value_Kind. cbn.
      destruct K' as [E|E]; rewrite E; discriminate. }
    assert (Lv : result (Len v) = Z.of_nat (List.length items))
      by (apply (proj1 (Len_of_sliceable v Wf C) _ _ _ R)).
    split; [reflexivity|]. split; [|split; [|split]].
    + unfold CanSlice. rewrite R'. unfold reflect.Value_Kind. cbn.
      destruct K' as [E|E]; rewrite E; reflexivity.
    + unfold Len. rewrite R'. unfold reflect.Value_Kind.
      cbn [reflect.Value_Type reflect.Value_Len].
      unfold sub. rewrite sub_length by lia.
      destruct K' as [E|E]; rewrite E; reflexivity.
    + intros k Hk Hl. rewrite Lv in Hl.
      rewrite (Index_of_sequence u _ sub rest k R' K').
      rewrite (Index_of_sequence v t items spare (i + k) R K).
      unfold sub at 1. rewrite sub_length by lia.
      rewrite (proj2 (Z.leb_gt _ _)) by lia.
      rewrite (proj2 (Z.leb_gt _ (i + k))) by lia.
      rewrite !(proj2 (Z.ltb_ge _ 0)) by lia.
      unfold sub. rewrite sub_nth by lia.
      assert (N : nth (Z.to_nat (i + k)) backing reflect.VInvalid
                  = nth (Z.to_nat (i + k)) items reflect.VInvalid).
      { unfold backing, backing_of_sequence.
        destruct (reflect.Type_Kind t); try reflexivity;
          apply app_nth1; lia. }
      rewrite N. reflexivity.
    + intros k _ _ Hs. exfalso. unfold IsString in Hs. rewrite R in Hs.
      unfold reflect.Value_Kind in Hs. cbn [reflect.Value_Type] in Hs.
      destruct K as [K|K]; rewrite K in Hs; discriminate Hs.
  - rewrite (Slice_of_text v t s i j R K) in S.
    destruct (in_bounds i j _) eqn:B; [|discriminate S].
    apply in_bounds_spec in B.
    rewrite <- backing_of_runes_length in B.
    injection S as <-.
    cbn [diagnostics result ret fst snd].
    set (backing := backing_of_runes (utf8.runes s)) in *.
    set (sub := firstn (Z.to_nat (j - i)) (skipn (Z.to_nat i) backing)).
    set (u := AsValue (go_string (utf8.string_of_runes sub))).
    assert (R' : getResolvedValue u
                 = reflect.VString (reflect.Predeclared reflect.String)
                     (utf8.string_of_runes sub)) by reflexivity.
    assert (V : utf8.runes (utf8.string_of_runes sub) = sub)
      by (apply runes_string_of_runes, Forall_sub, backing_of_runes_valid).
    assert (Lv : result (Len v) = Z.of_nat (List.length (utf8.runes s)))
      by (apply (proj2 (Len_of_sliceable v Wf C) _ _ R)).
    split; [reflexivity|]. split; [reflexivity|]. split; [|split].
    + unfold Len. rewrite R'.
      unfold reflect.Value_Kind. cbn [reflect.Value_Type reflect.Type_Kind
        reflect.Value_String].
      rewrite V. unfold sub. rewrite sub_length by lia. reflexivity.
    + intros k Hk Hl. rewrite Lv in Hl.
      rewrite (Index_of_text u _ _ k R' eq_refl), V.
      rewrite (Index_of_text v t s (i + k) R K).
      unfold sub at 1. rewrite sub_length by lia.
      rewrite (proj2 (Z.ltb_lt k _)) by lia.
      rewrite (proj2 (Z.ltb_lt (i + k) _)) by lia.
      rewrite !(proj2 (Z.ltb_ge _ 0)) by lia.
      unfold sub. rewrite sub_nth by lia.
      unfold backing, backing_of_runes.
      rewrite app_nth1 by lia. reflexivity.
    + intros k Hk Hl _. rewrite Lv in Hl.
      rewrite (Index_of_text u _ _ k R' eq_refl), V.
      unfold sub at 1. rewrite sub_length by lia.
      rewrite (proj2 (Z.ltb_lt k _)) by lia.
      rewrite (proj2 (Z.ltb_ge _ 0)) by lia.
      unfold sub. rewrite sub_nth by lia.
      unfold backing, backing_of_runes.
      rewrite app_nth2 by lia. rewrite nth_repeat. reflexivity.
Qed.


(** X10.  [Index(i)] of a sequence or a string faults exactly when [i] is
    negative: past the end it gives nil (the empty string), never a
    fault. *)
Theorem Index_faults_iff (v : Value) (i : Z) :
  reflect.well_formed (getResolvedValue v) = true ->
  CanSlice v = true ->
  (Index v i = None <-> i < 0).
Proof.
  intros Wf C.
  destruct (CanSlice_cases v Wf C)
    as [(t & items & spare & R & K)|(t & s & R & K)].
  - rewrite (Index_of_sequence v t items spare i R K).
    destruct (Z.leb_spec (Z.of_nat (List.length items)) i);
      [split; [discriminate | lia]|].
    destruct (Z.ltb_spec i 0); split; try discriminate; try lia; reflexivity.
  - rewrite (Index_of_text v t s i R K).
    destruct (Z.ltb_spec i (Z.of_nat (List.length (utf8.runes s))));
      [|split; [discriminate | lia]].
    destruct (Z.ltb_spec i 0); split; try discriminate; try lia; reflexivity.
Qed.

(** X11.  [CanSlice] is the gate of [Slice] and [Index]: where it is false
    both never fault and give the empty [[]int] with one diagnostic,
    whatever the bounds; where it is true neither emits a diagnostic. *)
Theorem CanSlice_gates_Slice_and_Index (v : Value) :
  (CanSlice v = false ->
   forall i j, exists d,
     Slice v i j = Some (AsValue go_empty_ints, [d]) /\
     Index v i = Some (AsValue go_empty_ints, [d])) /\
  (CanSlice v = true ->
   forall i j w, Slice v i j = Some w \/ Index v i = Some w ->
                 diagnostics w = []).
Proof.
  unfold CanSlice, Slice, Index, Len. split.
  - destruct (reflect.Value_Kind (getResolvedValue v)); try discriminate;
      intros _ i j; eexists; split; reflexivity.
  - destruct (reflect.Value_Kind (getResolvedValue v)); try discriminate;
      intros _ i j w [H|H]; revert H; cbn [ret];
      repeat match goal with
      | |- context [match ?c with _ => _ end] => destruct c
      end; intros H; inversion H; reflexivity.
Qed.


(* ------------------------------------------------------------------ *)
(** ** Containment and equality *)

Lemma prefix_iff (p : string) : forall s,
  String.prefix p s = true <-> exists q, s = (p ++ q)%string.
Proof.
  induction p as [|a p IH]; intros s.
  - destruct s; cbn; (split; [intros _; eexists; reflexivity | reflexivity]).
  - destruct s as [|b s]; cbn.
    + split; [discriminate | intros [q H]; discriminate H].
    + destruct (ascii_dec a b) as [->|N].
      * rewrite IH. split; intros [q H]; exists q;
          [rewrite H; reflexivity | inversion H; reflexivity].
      * split; [discriminate | intros [q H]; inversion H; congruence].
Qed.

(** [strings.Contains] finds exactly the substrings. *)
Lemma strings_Contains_iff (s sub : string) :
  strings.Contains s sub = true <->
  exists p q, s = (p ++ sub ++ q)%string.
Proof.
  induction s as [|a s IH].
  - cbn [strings.Contains]. rewrite orb_false_r, prefix_iff. split.
    + intros [q H]. exists ""%string, q. exact H.
    + intros (p & q & H). destruct p; [exists q; exact H | discriminate H].
  - cbn [strings.Contains]. rewrite orb_true_iff, prefix_iff, IH. split.
    + intros [[q H]|(p & q & H)].
      * exists ""%string, q. exact H.
      * exists (String.String a p), q. rewrite H. reflexivity.
    + intros (p & q & H). destruct p as [|b p].
      * left. exists q. exact H.
      * right. inversion H. exists p, q. reflexivity.
Qed.

(** X12.  [Contains] on a string is the substring test on the text of
    [other]: it is true exactly when [other.String()] occurs in the
    string.  The text of a nil Value is empty, so every string contains
    nil. *)
Theorem Contains_in_text (v other : Value) (t : reflect.rtype) (s : string) :
  getResolvedValue v = reflect.VString t s ->
  reflect.Type_Kind t = reflect.String ->
  (result (Contains v other) = true <->
   exists p q, s = (p ++ result (String other) ++ q)%string) /\
  (IsNil other = true -> Contains v other = ret true).
Proof.
  intros R K.
  assert (E : Contains v other =
              (substr <- String other ;; ret (strings.Contains s substr))).
  { unfold Contains. rewrite R. unfold reflect.Value_Kind.
    cbn [reflect.Value_Type reflect.Value_String]. rewrite K. reflexivity. }
  rewrite E. split.
  - rewrite result_bind. cbn [result ret fst]. apply strings_Contains_iff.
  - intros N. unfold String. rewrite N. cbn.
    destruct s; reflexivity.
Qed.

Lemma EqualValueTo_invalid (v other : Value) :
  val v = reflect.VInvalid \/ val other = reflect.VInvalid ->
  EqualValueTo v other = ret false.
Proof.
  intros [N|N]; unfold EqualValueTo.
  - assert (A : IsNumber v = false)
      by (unfold IsNumber, IsInteger, IsFloat, getResolvedValue;
          rewrite N; reflexivity).
    assert (B : IsTime v = false)
      by (unfold IsTime, type_assert, Interface; rewrite N; reflexivity).
    rewrite A, B, N. reflexivity.
  - assert (A : IsNumber other = false)
      by (unfold IsNumber, IsInteger, IsFloat, getResolvedValue;
          rewrite N; reflexivity).
    assert (B : IsTime other = false)
      by (unfold IsTime, type_assert, Interface; rewrite N; reflexivity).
    rewrite A, B, N, !andb_false_r, orb_true_r. reflexivity.
Qed.




(** X14.  The Value of nil ([AsValue(nil)], which holds the zero
    [reflect.Value]) is equal to nothing, on either side of the comparison,
    not even to itself. *)
Theorem EqualValueTo_nil (v other : Value) :
  val v = reflect.VInvalid ->
  EqualValueTo v other = ret false /\ EqualValueTo other v = ret false /\
  EqualValueTo v v = ret false.
Proof.
  intros N. split; [|split]; apply EqualValueTo_invalid; tauto.
Qed.

Lemma SFeqb_sym (x y : spec_float) : SFeqb x y = SFeqb y x.
Proof.
  unfold SFeqb.
  destruct x as [sx|sx| |sx mx ex], y as [sy|sy| |sy my ey]; cbn;
    try reflexivity; try (destruct sx, sy; reflexivity);
    try (destruct sx; reflexivity); try (destruct sy; reflexivity).
  change (Pos.compare_cont Eq mx my) with (Pos.compare mx my).
  change (Pos.compare_cont Eq my mx) with (Pos.compare my mx).
  destruct sx, sy; try reflexivity;
    destruct (Z.compare_spec ex ey), (Z.compare_spec ey ex);
    try lia; try reflexivity;
    destruct (Pos.compare_spec mx my), (Pos.compare_spec my mx);
    try lia; reflexivity.
Qed.

Lemma float_eqb_sym (x y : float) : PrimFloat.eqb x y = PrimFloat.eqb y x.
Proof. rewrite !eqb_spec. apply SFeqb_sym. Qed.

Lemma rtype_eqb_sym (a b : reflect.rtype) :
  reflect.rtype_eqb a b = reflect.rtype_eqb b a.
Proof.
  unfold reflect.rtype_eqb.
  destruct (reflect.rtype_eq_dec a b), (reflect.rtype_eq_dec b a);
    congruence.
Qed.

Lemma bool_eqb_sym (a b : bool) : Bool.eqb a b = Bool.eqb b a.
Proof. destruct a, b; reflexivity. Qed.

(** Go's [==] is symmetric. *)
Lemma go_eqb_sym : forall a b : reflect.rvalue,
  reflect.go_eqb a b = reflect.go_eqb b a.
Proof.
  fix IH 1. intros a b.
  destruct a, b; cbn [reflect.go_eqb]; try reflexivity;
    try (rewrite rtype_eqb_sym; f_equal;
         first [ apply bool_eqb_sym | apply Z.eqb_sym | apply float_eqb_sym
               | apply String.eqb_sym ]).
  - (* sequences *)
    rewrite rtype_eqb_sym. f_equal.
    revert items0. induction items as [|x xs IHxs]; intros [|y ys];
      try reflexivity.
    rewrite (IH x y), IHxs. reflexivity.
  - (* structs *)
    rewrite rtype_eqb_sym. f_equal.
    revert fields0. induction fields as [|[n x] xs IHxs]; intros [|[m y] ys];
      try reflexivity.
    rewrite (IH x y), IHxs. reflexivity.
  - apply IH.
Qed.

(** X15.  [EqualValueTo] is symmetric, when [time.Time.Equal] is. *)
Theorem EqualValueTo_symmetric (v other : Value) :
  (forall t u, time_Equal t u = time_Equal u t) ->
  EqualValueTo v other = EqualValueTo other v.
Proof.
  intros T. unfold EqualValueTo.
  rewrite (andb_comm (IsNumber other)), (andb_comm (IsTime other)).
  rewrite (orb_comm (negb (reflect.Value_IsValid (val other)))).
  destruct (IsNumber v) eqn:Nv, (IsNumber other) eqn:No; cbn [andb];
    try (destruct (IsTime v && IsTime other); [rewrite T; reflexivity|];
         destruct (negb _ || negb _); [reflexivity|];
         rewrite go_eqb_sym;
         destruct (reflect.Value_Type (val v)),
           (reflect.Value_Type (val other));
         unfold reflect.Value_CanInterface; cbn [andb];
         rewrite ?(andb_comm (reflect.Type_Comparable r));
         reflexivity).
  pose proof (castToFloat64_silent v Nv) as Dv.
  pose proof (castToFloat64_silent other No) as Do.
  destruct (castToFloat64 v) as [v1 l1], (castToFloat64 other) as [v2 l2].
  cbn in *. subst. rewrite andb_comm. reflexivity.
Qed.

Lemma go_eqb_same_type (a b : reflect.rvalue) :
  concrete a = true -> reflect.go_eqb a b = true ->
  reflect.Value_Type a = reflect.Value_Type b.
Proof.
  destruct a, b; cbn; try discriminate; try reflexivity; intros _ H;
    apply andb_true_iff in H; destruct H as [H _];
    apply rtype_eqb_eq in H; subst; reflexivity.
Qed.

(** X16.  Equality does not coerce: two Values that are not both numbers
    and whose data are of different types are not equal (the string "1"
    is not the number 1). *)
Theorem EqualValueTo_needs_one_type (v other : Value) :
  concrete (Interface v) = true ->
  IsNumber v && IsNumber other = false ->
  reflect.Value_Type (Interface v) <> reflect.Value_Type (Interface other) ->
  EqualValueTo v other = ret false.
Proof.
  intros C N D. unfold EqualValueTo. rewrite N.
  destruct (IsTime v && IsTime other) eqn:T.
  - exfalso. apply andb_true_iff in T. destruct T as [Tv To].
    unfold IsTime, type_assert in Tv, To. apply D.
    destruct (reflect.Value_Type (Interface v)); [|discriminate Tv].
    destruct (reflect.Value_Type (Interface other)); [|discriminate To].
    apply rtype_eqb_eq in Tv, To. congruence.
  - destruct (negb _ || negb _); [reflexivity|].
    destruct (reflect.go_eqb (Interface v) (Interface other)) eqn:E;
      [|rewrite !andb_false_r; reflexivity].
    exfalso. apply D. exact (go_eqb_same_type _ _ C E).
Qed.

(** X17.  A Value whose type cannot be compared with [==] (a slice, a map,
    a function), and that is neither a number nor a time, is equal to
    nothing, itself included; the comparison does not fault. *)
Theorem EqualValueTo_not_comparable (v other : Value) (t : reflect.rtype) :
  reflect.Value_Type (val v) = Some t ->
  reflect.Type_Comparable t = false ->
  IsNumber v = false -> IsTime v = false ->
  EqualValueTo v other = ret false /\ EqualValueTo other v = ret false /\
  EqualValueTo v v = ret false.
Proof.
  intros Ht Hc N T.
  assert (G : forall u, EqualValueTo v u = ret false /\
                        EqualValueTo u v = ret false).
  { intros u. unfold EqualValueTo.
    rewrite N, T, Ht, Hc, !andb_false_r. cbn [andb].
    split.
    - destruct (negb _ || negb _); [reflexivity|].
      destruct (reflect.Value_Type (val u)); rewrite ?andb_false_r;
        reflexivity.
    - destruct (negb _ || negb _); [reflexivity|].
      destruct (reflect.Value_Type (val u)); rewrite ?andb_false_r;
        reflexivity. }
  split; [apply G | split; apply G].
Qed.


(* ------------------------------------------------------------------ *)
(** ** Iteration: count, order and keys *)

Lemma calls_keep_count {St : Type} (fn : @visitor St) (count : Z)
  (xs : list (Value * option Value)) :
  forall idx s i c key value b,
    In (Visited i c key value b) (calls fn count xs idx s) ->
    c = count /\ idx <= i < idx + Z.of_nat (List.length xs).
Proof.
  induction xs as [|[k w] xs IH]; intros idx s i c key value b; [cbn; tauto|].
  cbn [calls]. destruct (fn idx count k w s) as [[|] s'].
  - intros [H|H].
    + inversion H; subst. split; [reflexivity|]. cbn [List.length]. lia.
    + apply IH in H. cbn [List.length]. split; [tauto|lia].
  - intros [H|[]]. inversion H; subst.
    split; [reflexivity|]. cbn [List.length]. lia.
Qed.

(** A [visit] that always answers [true] sees every element. *)
Lemma calls_of_all {St : Type} (fn : @visitor St) (count : Z)
  (xs : list (Value * option Value)) :
  (forall i c k w st, fst (fn i c k w st) = true) ->
  forall idx s, visited_keys (calls fn count xs idx s) = map fst xs.
Proof.
  intros A. induction xs as [|[k w] xs IH]; intros idx s; [reflexivity|].
  cbn [calls]. specialize (A idx count k w s).
  destruct (fn idx count k w s) as [b s']. cbn [fst] in A. subst b.
  unfold visited_keys in *. cbn [flat_map visited_key app map fst].
  rewrite IH. reflexivity.
Qed.

Lemma visited_keys_trace {St : Type} (v : Value) (fn : @visitor St)
  (empty : St -> St) (reverse sorted : bool) (s : St) :
  (forall i c k w st, fst (fn i c k w st) = true) ->
  visited_keys (trace v fn empty reverse sorted s)
  = map fst (visit_order v reverse sorted).
Proof.
  intros A. rewrite trace_calls.
  destruct (visit_order v reverse sorted) as [|x xs] eqn:E; [reflexivity|].
  cbn [is_nil]. apply calls_of_all. exact A.
Qed.

Lemma visit_count_Len (v : Value) (reverse sorted : bool) :
  visit_order v reverse sorted <> [] ->
  visit_count v reverse sorted = result (Len v).
Proof.
  intros N.
  assert (N0 : visit_order v false false <> []).
  { intros E. apply N. apply length_zero_iff_nil.
    rewrite visit_order_length, E. reflexivity. }
  clear N. revert N0.
  unfold visit_order, visit_count, Len, ordered_keys.
  destruct (reflect.Value_Kind (getResolvedValue v)); cbn [result ret fst];
    intros N0; try contradiction; try reflexivity.
  transitivity
    (Z.of_nat (List.length (reflect.Value_MapKeys (getResolvedValue v)))).
  - f_equal. destruct sorted, reverse; cbn [result ret fst];
      try reflexivity; apply Permutation_length, sort_Sort_perm.
  - destruct (getResolvedValue v); try (exfalso; apply N0; reflexivity).
    cbn. rewrite length_map. reflexivity.
Qed.

(** X18.  Every call of [visit] is given the length of the Value, as
    [Len] returns it, for [count], and an index from 0 below it. *)
Theorem visit_is_given_Len {St : Type} (v : Value) (fn : @visitor St)
  (empty : St -> St) (reverse sorted : bool) (s : St)
  (idx count : Z) (key : Value) (value : option Value) (b : bool) :
  In (Visited idx count key value b) (trace v fn empty reverse sorted s) ->
  count = result (Len v) /\ 0 <= idx < count.
Proof.
  rewrite trace_calls.
  destruct (visit_order v reverse sorted) as [|x xs] eqn:E;
    [intros [H|[]]; discriminate H|].
  cbn [is_nil]. intros H. apply calls_keep_count in H.
  assert (N : visit_order v reverse sorted <> [])
    by (rewrite E; discriminate).
  pose proof (visit_count_length v reverse sorted N) as L.
  pose proof (visit_count_Len v reverse sorted N) as C.
  rewrite E in L. destruct H as [Hc Hi]. subst count.
  split; [exact C|]. rewrite L. lia.
Qed.

(** X19.  Without sorting, [reverse] visits the items of an array or slice
    and the code points of a string in the opposite order, and is ignored
    for a map: the keys are visited as [MapKeys] gave them. *)
Theorem reverse_without_sort {St : Type} (v : Value) (fn : @visitor St)
  (empty : St -> St) (s : St) :
  (forall i c k w st, fst (fn i c k w st) = true) ->
  (reflect.Value_Kind (getResolvedValue v) <> reflect.Map ->
   visited_keys (trace v fn empty true false s)
   = rev (visited_keys (trace v fn empty false false s))) /\
  (reflect.Value_Kind (getResolvedValue v) = reflect.Map ->
   trace v fn empty true false s = trace v fn empty false false s).
Proof.
  intros A. split.
  - intros N. rewrite !visited_keys_trace by exact A.
    rewrite <- map_rev. f_equal.
    unfold visit_order, ordered_items, ordered_runes.
    destruct (reflect.Value_Kind (getResolvedValue v));
      try reflexivity; try contradiction;
      cbn [result ret fst]; rewrite reverse_in_place_rev, map_rev;
      reflexivity.
  - intros M. rewrite !trace_calls.
    unfold visit_order, visit_count, ordered_keys. rewrite M. reflexivity.
Qed.

Lemma ordered_runes_In (str : string) (reverse sorted : bool) (c : Z) :
  In c (ordered_runes str reverse sorted) -> In c (utf8.runes str).
Proof.
  unfold ordered_runes. destruct sorted, reverse;
    rewrite ?reverse_in_place_rev, <- ?in_rev; try tauto;
    apply Permutation_in, sort_SliceStable_perm.
Qed.

(** X20.  A string is visited by code point: each key is a string of one
    code point of the receiver, of length 1, and the value is nil.  Visited
    to the end in the plain order, the keys are the code points of the
    string in order. *)
Theorem text_is_visited_by_code_point {St : Type} (v : Value)
  (fn : @visitor St) (empty : St -> St) (s : St)
  (t : reflect.rtype) (str : string) :
  getResolvedValue v = reflect.VString t str ->
  reflect.Type_Kind t = reflect.String ->
  (forall reverse sorted idx count key value b,
     In (Visited idx count key value b)
       (trace v fn empty reverse sorted s) ->
     value = None /\ Len key = ret 1 /\
     exists c, In c (utf8.runes str) /\
               key = AsValue (go_string (utf8.string_of_rune c))) /\
  ((forall i c k w st, fst (fn i c k w st) = true) ->
   visited_keys (trace v fn empty false false s)
   = map (fun c => AsValue (go_string (utf8.string_of_rune c)))
       (utf8.runes str)).
Proof.
  intros R K.
  assert (O : forall reverse sorted,
            visit_order v reverse sorted =
            map (fun c => (AsValue (go_string (utf8.string_of_rune c)), None))
              (ordered_runes str reverse sorted)).
  { intros reverse sorted. unfold visit_order. rewrite R.
    unfold reflect.Value_Kind. cbn [reflect.Value_Type reflect.Value_String].
    rewrite K. reflexivity. }
  split.
  - intros reverse sorted idx count key value b. rewrite trace_calls.
    destruct (is_nil (visit_order v reverse sorted));
      [intros [H|[]]; discriminate H|].
    intros H. apply calls_on_elements in H. rewrite O in H.
    apply in_map_iff in H. destruct H as (c & E & I).
    inversion E; subst. apply ordered_runes_In in I.
    split; [reflexivity|]. split; [|exists c; split; [exact I|reflexivity]].
    unfold Len.
    change (getResolvedValue (AsValue (go_string (utf8.string_of_rune c))))
      with (go_string (utf8.string_of_rune c)).
    unfold go_string, reflect.Value_Kind.
    cbn [reflect.Value_Type reflect.Type_Kind reflect.Value_String].
    rewrite (runes_string_of_rune str c I). reflexivity.
  - intros A. rewrite visited_keys_trace by exact A. rewrite O, map_map.
    reflexivity.
Qed.

(* ------------------------------------------------------------------ *)
(** ** The slices handed to [sort.Sort] *)

Lemma nth_error_set_nth {A : Type} (l : list A) (i p : nat) (x : A) :
  nth_error (set_nth l i x) p =
  if (p =? i)%nat && (i <? List.length l)%nat then Some x
  else nth_error l p.
Proof.
  revert i p. induction l as [|h t IH]; intros i p.
  - cbn. rewrite andb_false_r. destruct i; reflexivity.
  - destruct i as [|i], p as [|p]; cbn [set_nth nth_error]; try reflexivity.
    rewrite IH. reflexivity.
Qed.

Lemma nth_error_swap {A : Type} (l : list A) (i j p : nat) :
  (i < List.length l)%nat -> (j < List.length l)%nat ->
  nth_error (swap l i j) p =
  if (p =? j)%nat then nth_error l i
  else if (p =? i)%nat then nth_error l j else nth_error l p.
Proof.
  intros Hi Hj. unfold swap.
  destruct (nth_error l i) as [a|] eqn:Ei;
    [|apply nth_error_None in Ei; lia].
  destruct (nth_error l j) as [b|] eqn:Ej;
    [|apply nth_error_None in Ej; lia].
  rewrite !nth_error_set_nth, length_set_nth.
  rewrite (proj2 (Nat.ltb_lt _ _) Hi), (proj2 (Nat.ltb_lt _ _) Hj).
  rewrite !andb_true_r. reflexivity.
Qed.

Lemma nth_error_ext {A : Type} (l l' : list A) :
  (forall p, nth_error l p = nth_error l' p) -> l = l'.
Proof.
  revert l'. induction l as [|h t IH]; intros [|h' t'] H.
  - reflexivity.
  - discriminate (H 0%nat).
  - discriminate (H 0%nat).
  - pose proof (H 0%nat) as H0. inversion H0. f_equal.
    apply IH. intros p. exact (H (S p)).
Qed.

(** The assignment [l[i], l[j] = l[j], l[i]] within bounds. *)
Lemma swap_checked_exchanges {A : Type} (l : list A) (i j : Z) :
  0 <= i < Z.of_nat (List.length l) ->
  0 <= j < Z.of_nat (List.length l) ->
  exists l',
    swap_checked l i j = Some l' /\
    List.length l' = List.length l /\
    nth_error l' (Z.to_nat i) = nth_error l (Z.to_nat j) /\
    nth_error l' (Z.to_nat j) = nth_error l (Z.to_nat i) /\
    (forall p, p <> Z.to_nat i -> p <> Z.to_nat j ->
               nth_error l' p = nth_error l p) /\
    swap_checked l' i j = Some l.
Proof.
  intros Hi Hj.
  assert (Ni : (Z.to_nat i < List.length l)%nat) by lia.
  assert (Nj : (Z.to_nat j < List.length l)%nat) by lia.
  assert (E : forall m : list A, List.length m = List.length l ->
                swap_checked m i j = Some (swap m (Z.to_nat i) (Z.to_nat j))).
  { intros m Hm. unfold swap_checked. rewrite Hm.
    rewrite (proj2 (Z.leb_le 0 i)), (proj2 (Z.ltb_lt i _)),
      (proj2 (Z.leb_le 0 j)), (proj2 (Z.ltb_lt j _)) by lia.
    reflexivity. }
  exists (swap l (Z.to_nat i) (Z.to_nat j)).
  split; [apply E; reflexivity|].
  split; [apply length_swap|].
  split; [|split; [|split]].
  - rewrite nth_error_swap by assumption.
    destruct (Nat.eqb_spec (Z.to_nat i) (Z.to_nat j)) as [Q|Q];
      [rewrite Q; reflexivity|].
    rewrite Nat.eqb_refl. reflexivity.
  - rewrite nth_error_swap by assumption. rewrite Nat.eqb_refl. reflexivity.
  - intros p Pi Pj. rewrite nth_error_swap by assumption.
    rewrite (proj2 (Nat.eqb_neq _ _) Pi), (proj2 (Nat.eqb_neq _ _) Pj).
    reflexivity.
  - rewrite E by apply length_swap. f_equal. apply nth_error_ext. intros p.
    rewrite nth_error_swap by (rewrite length_swap; assumption).
    rewrite !nth_error_swap by assumption. rewrite !Nat.eqb_refl.
    destruct (Nat.eqb_spec p (Z.to_nat j)) as [Pj|Pj].
    + subst p.
      destruct (Nat.eqb_spec (Z.to_nat i) (Z.to_nat j)) as [Q|Q];
        [rewrite Q|]; reflexivity.
    + destruct (Nat.eqb_spec p (Z.to_nat i)) as [Pi|Pi];
        [subst p|]; reflexivity.
Qed.

(** X21.  [Swap(i, j)] of the key and item slices, with both indices below
    [Len()], exchanges the two entries, leaves every other entry and the
    length as they are, and undoes itself when repeated; with an index out
    of range it is a run-time panic. *)
Theorem Swap_exchanges (sk : sortedKeys) (vl : valuesList) (i j : Z) :
  (0 <= i < sortedKeys_Len sk /\ 0 <= j < sortedKeys_Len sk ->
   exists sk',
     sortedKeys_Swap sk i j = Some sk' /\
     sortedKeys_Len sk' = sortedKeys_Len sk /\
     nth_error sk' (Z.to_nat i) = nth_error sk (Z.to_nat j) /\
     nth_error sk' (Z.to_nat j) = nth_error sk (Z.to_nat i) /\
     (forall p, p <> Z.to_nat i -> p <> Z.to_nat j ->
                nth_error sk' p = nth_error sk p) /\
     sortedKeys_Swap sk' i j = Some sk) /\
  (0 <= i < valuesList_Len vl /\ 0 <= j < valuesList_Len vl ->
   exists vl',
     valuesList_Swap vl i j = Some vl' /\
     valuesList_Len vl' = valuesList_Len vl /\
     nth_error vl' (Z.to_nat i) = nth_error vl (Z.to_nat j) /\
     nth_error vl' (Z.to_nat j) = nth_error vl (Z.to_nat i) /\
     (forall p, p <> Z.to_nat i -> p <> Z.to_nat j ->
                nth_error vl' p = nth_error vl p) /\
     valuesList_Swap vl' i j = Some vl) /\
  (~ (0 <= i < sortedKeys_Len sk /\ 0 <= j < sortedKeys_Len sk) ->
   sortedKeys_Swap sk i j = None) /\
  (~ (0 <= i < valuesList_Len vl /\ 0 <= j < valuesList_Len vl) ->
   valuesList_Swap vl i j = None).
Proof.
  unfold sortedKeys_Swap, valuesList_Swap, sortedKeys_Len, valuesList_Len.
  split; [|split; [|split]].
  - intros [Hi Hj].
    destruct (swap_checked_exchanges sk i j Hi Hj)
      as (l' & E & L & A & B & C & D).
    exists l'. rewrite L. tauto.
  - intros [Hi Hj].
    destruct (swap_checked_exchanges vl i j Hi Hj)
      as (l' & E & L & A & B & C & D).
    exists l'. rewrite L. tauto.
  - intros N. unfold swap_checked.
    destruct (0 <=? i) eqn:A, (i <? Z.of_nat (List.length sk)) eqn:B,
      (0 <=? j) eqn:C, (j <? Z.of_nat (List.length sk)) eqn:D;
      try reflexivity. exfalso. apply N. boolZ. lia.
  - intros N. unfold swap_checked.
    destruct (0 <=? i) eqn:A, (i <? Z.of_nat (List.length vl)) eqn:B,
      (0 <=? j) eqn:C, (j <? Z.of_nat (List.length vl)) eqn:D;
      try reflexivity. exfalso. apply N. boolZ. lia.
Qed.


(* ------------------------------------------------------------------ *)
(** ** Diagnostics, booleans and the safe marker *)

(** X22.  A getter emits a diagnostic exactly on a kind outside the ones
    its switch lists: [Integer] and [Float] on what is neither a number nor
    a string, [Bool] on what is not a boolean, [Len] on what has no length,
    [IsTrue] on what is none of these nor a struct.  [Negate] emits what
    [IsTrue] emits, under the name of [IsTrue]. *)
Theorem diagnostics_by_kind (v : Value) :
  let k := reflect.Value_Kind (getResolvedValue v) in
  (diagnostics (Integer v) = [] <-> IsNumber v || IsString v = true) /\
  (diagnostics (Float v) = [] <-> IsNumber v || IsString v = true) /\
  (diagnostics (Bool v) = [] <-> IsBool v = true) /\
  (diagnostics (Len v) = [] <-> is_container k = true) /\
  (diagnostics (IsTrue v) = [] <->
   IsNumber v || IsBool v || is_container k || (k == reflect.Struct) = true) /\
  diagnostics (Negate v) = diagnostics (IsTrue v).
Proof.
  intros k. subst k.
  unfold Negate, IsTrue, Len, Bool, Integer, Float, IsNumber, IsInteger,
    IsFloat, IsString, IsBool.
  destruct (reflect.Value_Kind (getResolvedValue v));
    cbn -[PrimFloat.eqb Z.eqb conv.int_of_Z];
    repeat match goal with
           | |- context [strconv_ParseFloat ?x] =>
               destruct (strconv_ParseFloat x)
           | |- context [?a =? ?b] => destruct (a =? b)
           | |- context [PrimFloat.eqb ?a ?b] => destruct (PrimFloat.eqb a b)
           end;
    cbn; repeat split; intros; try reflexivity; try discriminate.
Qed.

(** X23.  On a boolean, [IsTrue] is [Bool], [Negate] gives the boolean of
    the opposite value, and [String] is "True" or "False" (unless the datum
    renders itself through [fmt.Stringer]); no diagnostic is emitted. *)
Theorem boolean_Values (v : Value) :
  IsBool v = true ->
  IsTrue v = Bool v /\ diagnostics (Bool v) = [] /\
  IsBool (result (Negate v)) = true /\
  Bool (result (Negate v)) = ret (negb (result (Bool v))) /\
  (fmt_Stringer (Interface v) = None ->
   String v = ret (if result (Bool v) then "True" else "False")%string).
Proof.
  intros B. unfold IsBool in B. apply Kind_eqb_eq in B.
  assert (N : IsNil v = false).
  { unfold IsNil. destruct (getResolvedValue v); try reflexivity.
    discriminate B. }
  unfold IsTrue, Bool, Negate, String. rewrite N, B.
  split; [reflexivity|]. split; [reflexivity|]. split; [reflexivity|].
  split; [reflexivity|].
  intros S. rewrite S. unfold Bool. rewrite B. cbn.
  destruct (reflect.Value_Bool (getResolvedValue v)); reflexivity.
Qed.

(** X24.  No method consults the safe marker: a Value answers every method
    of the file as the Value of the same datum with the other marker does
    ([AsSafeValue(i)] as [AsValue(i)]), as receiver and as argument. *)
Theorem safe_is_not_consulted {St : Type} (v : Value) (b : bool) :
  let v' := {| val := val v; safe := b |} in
  (IsString v' = IsString v /\ IsBool v' = IsBool v /\
   IsFloat v' = IsFloat v /\ IsInteger v' = IsInteger v /\
   IsNumber v' = IsNumber v /\ IsTime v' = IsTime v /\ IsNil v' = IsNil v) /\
  (String v' = String v /\ Integer v' = Integer v /\ Float v' = Float v /\
   Bool v' = Bool v /\ Time v' = Time v /\ IsTrue v' = IsTrue v /\
   Negate v' = Negate v /\ Len v' = Len v /\ CanSlice v' = CanSlice v /\
   Interface v' = Interface v) /\
  (forall i j, Slice v' i j = Slice v i j) /\
  (forall i, Index v' i = Index v i) /\
  (forall other, Contains v' other = Contains v other /\
                 Contains other v' = Contains other v /\
                 EqualValueTo v' other = EqualValueTo v other /\
                 EqualValueTo other v' = EqualValueTo other v) /\
  (forall (fn : @visitor St) empty reverse sorted s,
     IterateOrder v' fn empty reverse sorted s
     = IterateOrder v fn empty reverse sorted s).
Proof.
  intros v'.
  assert (R : getResolvedValue v' = getResolvedValue v) by reflexivity.
  assert (I : Interface v' = Interface v) by reflexivity.
  split; [repeat split|]. split; [repeat split|].
  split; [reflexivity|]. split; [reflexivity|].
  split; [|reflexivity].
  intros other. split; [reflexivity|]. split; [|split; reflexivity].
  assert (E : forall u, EqualValueTo v' u = EqualValueTo v u)
    by reflexivity.
  assert (S : String v' = String v) by reflexivity.
  assert (C : forall items, contains_item v' items = contains_item v items).
  { induction items as [|item items IH]; [reflexivity|].
    cbn [contains_item]. rewrite E, IH. reflexivity. }
  unfold Contains. rewrite S, !C, R, I. reflexivity.
Qed.



End Host.

(* ================================================================== *)
(** * Instances on the example host *)
(* ================================================================== *)

Lemma example_insert_perm {A : Type} (less : list A -> nat -> nat -> W bool)
  (x : A) (l : list A) :
  Permutation (result (example.insert less x l)) (x :: l).
Proof.
  induction l as [|y l IH]; cbn [example.insert]; [apply Permutation_refl|].
  rewrite result_bind. destruct (result (less [y; x] 0%nat 1%nat)).
  - rewrite result_bind. cbn [result ret fst].
    apply Permutation_trans with (y :: x :: l);
      [apply perm_skip; exact IH | apply perm_swap].
  - apply Permutation_refl.
Qed.

Lemma example_Sort_perm (A : Type) (less : list A -> nat -> nat -> W bool)
  (l : list A) :
  Permutation (result (example.Sort A less l)) l.
Proof.
  induction l as [|x l IH]; cbn [example.Sort]; [apply Permutation_refl|].
  rewrite result_bind.
  apply Permutation_trans with (x :: result (example.Sort A less l));
    [apply example_insert_perm | apply perm_skip; exact IH].
Qed.

Lemma example_SliceStable_perm (A : Type)
  (less : list A -> nat -> nat -> bool) (l : list A) :
  Permutation (example.SliceStable A less l) l.
Proof. apply example_Sort_perm. Qed.

Lemma example_cap_of_runes_ge (n : nat) : (n <= example.cap_of_runes n)%nat.
Proof. apply Nat.le_max_r. Qed.

Lemma Negate_by_kind_witness :
  result (Negate example.ParseFloat (AsValue (go_int 5))) = AsValue (go_int 0).
Proof.
  exact (Negate_by_kind example.ParseFloat (AsValue (go_int 5)) eq_refl).
Defined.

Lemma EqualValueTo_numeric_witness :
  EqualValueTo example.ParseFloat example.time_Equal
    (AsValue (go_int 1)) (AsValue (go_float64 1))
  = ret true.
Proof.
  exact (proj2 (EqualValueTo_numeric example.ParseFloat example.time_Equal
                  (AsValue (go_int 1)) (AsValue (go_float64 1))
                  eq_refl eq_refl eq_refl eq_refl) eq_refl eq_refl).
Defined.

(** C2 as stated fails on unsigned integers from [2^63] on: [castToFloat64]
    takes an integer through [Integer()], where such a value wraps.  The
    [uint64] [2^64 - 1] is equal to the [int] [-1], although the two
    numbers are [2^64] apart; and the [uint64] [2^63] is not equal to the
    float [2^63], although their difference is zero. *)
Lemma EqualValueTo_wraps_unsigned :
  let uint64 := reflect.Predeclared reflect.Uint64 in
  let most := AsValue (reflect.VUint uint64 (2 ^ 64 - 1)) in
  let minus_one := AsValue (go_int (-1)) in
  let half := AsValue (reflect.VUint uint64 (2 ^ 63)) in
  let half_float := AsValue (go_float64 (conv.float64_of_int (2 ^ 63))) in
  (IsNumber most = true /\ IsNumber minus_one = true /\
   EqualValueTo example.ParseFloat example.time_Equal most minus_one
   = ret true /\
   PrimFloat.ltb
     (abs (float64_of_number most - float64_of_number minus_one)) epsilon
   = false) /\
  (IsNumber half = true /\ IsNumber half_float = true /\
   EqualValueTo example.ParseFloat example.time_Equal half half_float
   = ret false /\
   PrimFloat.ltb
     (abs (float64_of_number half - float64_of_number half_float)) epsilon
   = true).
Proof. vm_compute. repeat split; reflexivity. Qed.

Lemma reference_resolved_one_level_witness :
  IsInteger (AsValue example.ref_to_five) = true /\
  Integer example.ParseFloat (AsValue example.ref_to_five) = ret 5.
Proof.
  destruct (reference_resolved_one_level example.ParseFloat example.Stringer
              (AsValue example.ref_to_five) _ _ _ eq_refl eq_refl)
    as [[_ [_ [_ [_ [I _]]]]] [D _]].
  destruct (D ltac:(discriminate)) as [_ [_ [_ [_ [_ [_ [_ [N _]]]]]]]].
  split; [exact I | exact N].
Defined.

(** C3 as stated fails: the resolved value of a [*time.Time] is a
    [time.Time], for which [IsTime] holds and [Time] gives the time, yet on
    the reference [IsTime] is false and [Time] is the zero time. *)
Lemma IsTime_not_on_resolved_value :
  getResolvedValue (AsValue example.ref_to_time) = example.some_time /\
  IsTime (AsValue example.some_time) = true /\
  Time (AsValue example.some_time) = example.some_time /\
  IsTime (AsValue example.ref_to_time) = false /\
  Time (AsValue example.ref_to_time) <> example.some_time.
Proof.
  repeat split; try reflexivity.
  cbv. intros H. discriminate H.
Qed.

Lemma Index_within_contract_witness :
  Index (AsValue example.two_ints) 1 = Some (ret (AsValue (go_int 20))) /\
  Index (AsValue example.two_ints) 2 = Some (ret (AsValue go_nil)).
Proof.
  split.
  - destruct (Index_within_contract (AsValue example.two_ints) 1
                ltac:(intro H; discriminate H)) as [S _].
    exact (S _ _ _ eq_refl (or_intror eq_refl)).
  - destruct (Index_within_contract (AsValue example.two_ints) 2
                ltac:(intro H; discriminate H)) as [S _].
    exact (S _ _ _ eq_refl (or_intror eq_refl)).
Defined.

Lemma nothing_to_visit_calls_onEmpty_once_witness :
  trace example.ParseFloat example.Stringer example.Sort example.SliceStable
    (AsValue (go_string "")) example.count_visits S true true 0%nat
  = [Emptied].
Proof.
  exact (proj1 (nothing_to_visit_calls_onEmpty_once
                  example.ParseFloat example.Stringer
                  example.Sort example.SliceStable
                  example_Sort_perm example_SliceStable_perm
                  (AsValue (go_string "")) example.count_visits S true true
                  0%nat eq_refl)).
Defined.


Lemma derived_values_not_safe_witness :
  safe (AsSafeValue example.two_ints) = true /\
  safe (result (Negate example.ParseFloat (AsSafeValue example.two_ints)))
  = false.
Proof.
  split; [reflexivity|].
  exact (proj1 (derived_values_not_safe
                  example.ParseFloat example.Stringer example.cap_of_runes
                  example.Sort example.SliceStable
                  example_Sort_perm example_SliceStable_perm
                  (St := nat) (AsSafeValue example.two_ints))).
Defined.


Lemma Contains_on_map_witness :
  result (Contains example.ParseFloat example.Stringer example.time_Equal
            (AsValue example.ages) (AsValue (go_string "b"))) = true /\
  result (Contains example.ParseFloat example.Stringer example.time_Equal
            (AsValue example.ages) (AsValue (go_string "c"))) = false.
Proof.
  destruct (Contains_on_map example.ParseFloat example.Stringer
              example.time_Equal (AsValue example.ages)
              (AsValue (go_string "b")) _ _ eq_refl eq_refl eq_refl)
    as (_ & _ & _ & B & _).
  destruct (Contains_on_map example.ParseFloat example.Stringer
              example.time_Equal (AsValue example.ages)
              (AsValue (go_string "c")) _ _ eq_refl eq_refl eq_refl)
    as (_ & _ & _ & C & _).
  split.
  - exact (f_equal result (B eq_refl eq_refl eq_refl)).
  - exact (f_equal result (C eq_refl eq_refl eq_refl)).
Defined.

(** C8 as stated fails: in a [map[MyInt]string] that holds the key
    [MyInt(1)], the kind of the Value [MyInt(1)] is exactly the kind of the
    keys, the integer kind of [int], and the key is present; yet [Contains]
    is false, because the type is not [int] itself. *)
Lemma Contains_misses_key_of_integer_kind :
  reflect.Value_Kind example.my_one = reflect.Int /\
  option_map reflect.Type_Kind
    (reflect.Type_Key (reflect.MapOf example.MyInt
                         (reflect.Predeclared reflect.String)))
  = Some (reflect.Value_Kind example.my_one) /\
  In example.my_one (reflect.Value_MapKeys example.by_my_int) /\
  reflect.Value_IsValid
    (reflect.Value_MapIndex example.by_my_int example.my_one) = true /\
  result (Contains example.ParseFloat example.Stringer example.time_Equal
            (AsValue example.by_my_int) (AsValue example.my_one)) = false.
Proof. vm_compute. repeat split; try reflexivity. left. reflexivity. Qed.

(** Nor is a key of another integer type found: [int64(1)] in a
    [map[int64]string] that holds it. *)
Example Contains_misses_int64_key :
  In example.one_int64 (reflect.Value_MapKeys example.by_int64) /\
  Contains example.ParseFloat example.Stringer example.time_Equal
    (AsValue example.by_int64) (AsValue example.one_int64)
  = (false,
     [{| format :=
           "Value.Contains() does not support lookup type '%s'" ++ newline;
         argument := "int64" |}]).
Proof. vm_compute. split; [left|]; reflexivity. Qed.

(** [String] asks the raw datum for [fmt.Stringer]: where only the
    reference type has the method, the text of a reference is the method's,
    not the rendering of the struct it refers to. *)
Example String_asks_the_reference :
  let stringer i :=
    match i with
    | reflect.VPtr _ _ _ => Some "custom"%string
    | _ => None
    end in
  let T :=
    reflect.Defined "main.T"
      (reflect.Literal reflect.Struct "struct {}" true) in
  let x := reflect.VStruct T [] in
  let p := reflect.VPtr (reflect.PtrTo T) 3 x in
  getResolvedValue (AsValue p) = x /\
  result (String stringer (AsValue p)) = "custom"%string /\
  result (String stringer (AsValue x)) = "<main.T Value>"%string.
Proof. vm_compute. repeat split; reflexivity. Qed.

(* ------------------------------------------------------------------ *)
(** ** The behaviours that the documentation gives as examples *)

Example Sprintf_f_15 : fmt.Sprintf_f 15 = "15.000000"%string.
Proof. vm_compute. reflexivity. Qed.

Example Sprintf_f_neg : fmt.Sprintf_f (-2.5) = "-2.500000"%string.
Proof. vm_compute. reflexivity. Qed.

Example Sprintf_f_round : fmt.Sprintf_f 0.1234567 = "0.123457"%string.
Proof. vm_compute. reflexivity. Qed.

Example Sprintf_f_small : fmt.Sprintf_f 1e-9 = "0.000000"%string.
Proof. vm_compute. reflexivity. Qed.

Example runes_euro :
  utf8.runes (utf8.of_bytes [0x61; 0xE2; 0x82; 0xAC; 0xFF])
  = [0x61; 0x20AC; 0xFFFD].
Proof. vm_compute. reflexivity. Qed.

Example int_of_float_trunc : conv.int_of_float (-2.75) = -2.
Proof. vm_compute. reflexivity. Qed.

Example float64_of_int_1 : conv.float64_of_int 1 = 1%float.
Proof. vm_compute. reflexivity. Qed.

Example Contains_substring :
  result (Contains example.ParseFloat example.Stringer example.time_Equal
            (AsValue (go_string "Hello, World!")) (AsValue (go_string "World")))
  = true /\
  result (Contains example.ParseFloat example.Stringer example.time_Equal
            (AsValue (go_string "Hello")) (AsValue (go_string "world")))
  = false.
Proof. vm_compute. split; reflexivity. Qed.

Example Negate_asymmetry :
  result (Negate example.ParseFloat (AsValue (go_int 0))) = AsValue (go_int 1)
  /\ result (Negate example.ParseFloat (AsValue (go_float64 2.5)))
     = AsValue (go_float64 0)
  /\ result (Negate example.ParseFloat (AsValue (go_float64 0)))
     = AsValue (go_float64 1.1).
Proof. vm_compute. repeat split; reflexivity. Qed.

(** [{"b": 2, "a": 1}], sorted: the key "a", then the key "b". *)
Example IterateOrder_sorted_map :
  map fst (visit_order example.ParseFloat example.Stringer example.Sort
             example.SliceStable (AsValue example.ages) false true)
  = [ {| val := go_string "a"; safe := false |};
      {| val := go_string "b"; safe := false |} ].
Proof. vm_compute. reflexivity. Qed.

(** [[3, 1, 2]], sorted and reversed: 3, 2, 1. *)
Example IterateOrder_sorted_reversed :
  map fst (visit_order example.ParseFloat example.Stringer example.Sort
             example.SliceStable (AsValue example.three_ints) true true)
  = [ {| val := go_int 3; safe := false |};
      {| val := go_int 2; safe := false |};
      {| val := go_int 1; safe := false |} ].
Proof. vm_compute. reflexivity. Qed.

(** A [visit] that answers false at once is called once, on the first of
    three items, and [onEmpty] is not called. *)
Example IterateOrder_stops_early :
  trace example.ParseFloat example.Stringer example.Sort example.SliceStable
    (AsValue example.three_ints) example.stop_at_once S false false 0%nat
  = [Visited 0 3 {| val := go_int 3; safe := false |} None false]
  /\ result (IterateOrder example.ParseFloat example.Stringer example.Sort
               example.SliceStable (AsValue example.three_ints)
               example.stop_at_once S false false 0%nat) = 1%nat.
Proof. vm_compute. split; reflexivity. Qed.

Example IsTrue_laws :
  result (IsTrue (AsValue (go_int 0))) = false /\
  result (IsTrue (AsValue (go_int 5))) = true /\
  result (IsTrue (AsValue (go_string ""))) = false /\
  result (IsTrue (AsValue go_empty_ints)) = false /\
  result (IsTrue (AsValue
                    (reflect.VStruct
                       (reflect.Literal reflect.Struct "struct {}" true) [])))
  = true /\
  result (IsTrue (AsValue go_nil)) = false.
Proof. vm_compute. repeat split; reflexivity. Qed.

(* ------------------------------------------------------------------ *)
(** ** Instances of the further properties *)

Lemma Negate_complements_IsTrue_witness :
  result (IsTrue (result (Negate example.ParseFloat (AsValue (go_int 5)))))
  = negb (result (IsTrue (AsValue (go_int 5)))).
Proof.
  exact (proj1 (Negate_complements_IsTrue example.ParseFloat
                  (AsValue (go_int 5)) eq_refl)).
Defined.

Lemma Integer_of_integer_witness :
  Integer example.ParseFloat
    (AsValue (reflect.VUint (reflect.Predeclared reflect.Uint64) (2 ^ 64 - 1)))
  = ret (-1).
Proof.
  exact (proj2 (Integer_of_integer example.ParseFloat
                  (AsValue (reflect.VUint (reflect.Predeclared reflect.Uint64)
                              (2 ^ 64 - 1)))
                  eq_refl) eq_refl).
Defined.

Lemma Integer_truncates_Float_witness :
  Integer example.ParseFloat (AsValue (go_float64 (-2.75))) = ret (-2).
Proof.
  exact (proj1 (Integer_truncates_Float example.ParseFloat
                  (AsValue (go_float64 (-2.75))) (or_introl eq_refl))).
Defined.

Lemma nil_Value_fallbacks_witness :
  String example.Stringer (AsValue go_nil) = ret ""%string.
Proof.
  exact (proj1 (nil_Value_fallbacks example.ParseFloat example.Stringer
                  example.time_Equal example.cap_of_runes
                  example.Sort example.SliceStable
                  (AsValue go_nil) eq_refl)).
Defined.


Lemma IsTrue_iff_Len_positive_witness :
  result (IsTrue (AsValue example.two_ints))
  = (0 <? result (Len (AsValue example.two_ints))).
Proof.
  exact (proj1 (IsTrue_iff_Len_positive (AsValue example.two_ints)
                  eq_refl eq_refl)).
Defined.

Lemma Slice_is_a_window_witness :
  let w := ret (AsValue (go_string (utf8.string_of_runes [98; 99; 0]))) in
  Slice example.cap_of_runes (AsValue (go_string "abc")) 1 4 = Some w /\
  Len (result w) = ret 3 /\
  Index (result w) 0 = Index (AsValue (go_string "abc")) 1 /\
  Index (result w) 2
  = Some (ret (AsValue (go_string (utf8.string_of_rune 0)))).
Proof.
  intros w.
  destruct (Slice_is_a_window example.cap_of_runes example_cap_of_runes_ge
              (AsValue (go_string "abc")) 1 4 w eq_refl eq_refl eq_refl)
    as (_ & _ & L & I & Z).
  split; [reflexivity|]. split; [exact L|]. split.
  - apply (I 0); [lia | vm_compute; reflexivity].
  - apply (Z 2); [lia | vm_compute; discriminate | reflexivity].
Defined.


Lemma Index_faults_iff_witness :
  Index (AsValue example.two_ints) (-1) = None.
Proof.
  apply (proj2 (Index_faults_iff (AsValue example.two_ints) (-1)
                  eq_refl eq_refl)).
  lia.
Defined.

Lemma Contains_in_text_witness :
  result (Contains example.ParseFloat example.Stringer example.time_Equal
            (AsValue (go_string "hello")) (AsValue (go_string "ell"))) = true.
Proof.
  apply (proj1 (Contains_in_text example.ParseFloat example.Stringer
                  example.time_Equal (AsValue (go_string "hello"))
                  (AsValue (go_string "ell")) _ _ eq_refl eq_refl)).
  exists "h"%string, "o"%string. reflexivity.
Defined.


Lemma EqualValueTo_nil_witness :
  EqualValueTo example.ParseFloat example.time_Equal
    (AsValue go_nil) (AsValue go_nil) = ret false.
Proof.
  exact (proj1 (EqualValueTo_nil example.ParseFloat example.time_Equal
                  (AsValue go_nil) (AsValue go_nil) eq_refl)).
Defined.

Lemma EqualValueTo_symmetric_witness :
  EqualValueTo example.ParseFloat example.time_Equal
    (AsValue (go_int 1)) (AsValue (go_float64 1))
  = EqualValueTo example.ParseFloat example.time_Equal
      (AsValue (go_float64 1)) (AsValue (go_int 1)).
Proof.
  exact (EqualValueTo_symmetric example.ParseFloat example.time_Equal
           (AsValue (go_int 1)) (AsValue (go_float64 1)) go_eqb_sym).
Defined.

Lemma EqualValueTo_needs_one_type_witness :
  EqualValueTo example.ParseFloat example.time_Equal
    (AsValue (go_string "1")) (AsValue (go_int 1)) = ret false.
Proof.
  apply EqualValueTo_needs_one_type; [reflexivity | reflexivity |].
  intros H. discriminate H.
Defined.

Lemma EqualValueTo_not_comparable_witness :
  EqualValueTo example.ParseFloat example.time_Equal
    (AsValue example.two_ints) (AsValue example.two_ints) = ret false.
Proof.
  exact (proj1 (EqualValueTo_not_comparable example.ParseFloat
                  example.time_Equal (AsValue example.two_ints)
                  (AsValue example.two_ints) _ eq_refl eq_refl eq_refl
                  eq_refl)).
Defined.

Lemma visit_is_given_Len_witness :
  2 = result (Len (AsValue example.two_ints)) /\ 0 <= 1 < 2.
Proof.
  apply (visit_is_given_Len example.ParseFloat example.Stringer
           example.Sort example.SliceStable
           example_Sort_perm example_SliceStable_perm
           (AsValue example.two_ints) example.count_visits S false false
           0%nat 1 2 {| val := go_int 20; safe := false |} None true).
  right. left. reflexivity.
Defined.

Lemma reverse_without_sort_witness :
  visited_keys
    (trace example.ParseFloat example.Stringer example.Sort
       example.SliceStable (AsValue example.three_ints)
       example.count_visits S true false 0%nat)
  = rev (visited_keys
           (trace example.ParseFloat example.Stringer example.Sort
              example.SliceStable (AsValue example.three_ints)
              example.count_visits S false false 0%nat)).
Proof.
  apply (reverse_without_sort example.ParseFloat example.Stringer
           example.Sort example.SliceStable example_SliceStable_perm
           (AsValue example.three_ints) example.count_visits S 0%nat).
  - intros i c k w st. reflexivity.
  - intros H. discriminate H.
Defined.

Lemma text_is_visited_by_code_point_witness :
  visited_keys
    (trace example.ParseFloat example.Stringer example.Sort
       example.SliceStable (AsValue (go_string "ab"))
       example.count_visits S false false 0%nat)
  = [AsValue (go_string "a"); AsValue (go_string "b")].
Proof.
  apply (proj2 (text_is_visited_by_code_point example.ParseFloat
                  example.Stringer example.Sort example.SliceStable
                  example_SliceStable_perm
                  (AsValue (go_string "ab")) example.count_visits S 0%nat
                  _ _ eq_refl eq_refl)).
  intros i c k w st. reflexivity.
Defined.

Lemma Swap_exchanges_witness :
  sortedKeys_Swap [go_int 1; go_int 2; go_int 3] 0 2
  = Some [go_int 3; go_int 2; go_int 1] /\
  valuesList_Swap [AsValue (go_int 1)] 0 1 = None.
Proof.
  destruct (Swap_exchanges [go_int 1; go_int 2; go_int 3]
              [AsValue (go_int 1)] 0 1) as (_ & _ & _ & N).
  split; [reflexivity|]. apply N. cbn. lia.
Defined.

Lemma boolean_Values_witness :
  Bool (result (Negate example.ParseFloat (AsValue (go_bool true))))
  = ret false.
Proof.
  destruct (boolean_Values example.ParseFloat example.Stringer
              (AsValue (go_bool true)) eq_refl) as (_ & _ & _ & B & _).
  exact B.
Defined.


(** [Slice] is bounded by the capacity: a slice with room to spare and the
    code points of a short string can be cut past their length. *)
Example Slice_into_the_capacity :
  Slice example.cap_of_runes (AsValue example.roomy_ints) 1 4
  = Some (ret (AsValue
                 (reflect.VSeq
                    (reflect.SliceOf (reflect.Predeclared reflect.Int))
                    [go_int 20; go_int 0; go_int 0] [go_int 0]))) /\
  Index (AsValue example.roomy_ints) 2 = Some (ret (AsValue go_nil)) /\
  Slice example.cap_of_runes (AsValue example.roomy_ints) 0 6 = None /\
  Slice example.cap_of_runes (AsValue (go_string "abc")) 0 4
  = Some (ret (AsValue
                 (go_string
                    ("abc" ++ String.String (ascii_of_nat 0) "")%string))).
Proof. vm_compute. repeat split; reflexivity. Qed.
